(** * Project initialisation (general/project/projectinit.go)

    A shallow embedding of [ProjectInitCommand] and of the functions it
    is made of, together with the properties of its behaviour.

    Go values are represented as follows.
    - [string]: Rocq [string] (a sequence of bytes).  The path functions
      work on the underlying byte list.
    - [map[coreutils.Technology]bool]: [gmap Technology bool].
    - [error]: an arbitrary type [E]; a Go [error] result that may be
      [nil] is an [option E], and a Go pair [(v, err)] is a [Result].
    - calls that leave the process (detection, the Artifactory server,
      the file system, the terminal) are performed in a monad that
      threads an abstract world and records every call, with its
      outcome, in a trace. *)

From Stdlib Require Import String Ascii List ZArith Bool Lia.
From stdpp Require Import base gmap strings list.
Import ListNotations.

Local Open Scope string_scope.
Local Open Scope list_scope.

(** ** Go library functions used by the command *)

(** [path/filepath] on Unix: the separator is the slash and volume
    names are empty. *)
Module filepath.

Definition Separator : ascii := "/"%char.

Definition IsPathSeparator (c : ascii) : bool := Ascii.eqb c Separator.

Definition isDot (c : ascii) : bool := Ascii.eqb c "."%char.

(** [atElemEnd rest]: the read index is at the end of the path or on a
    separator ([r == n || os.IsPathSeparator(path[r])]). *)
Definition atElemEnd (rest : list ascii) : bool :=
  match rest with
  | [] => true
  | c :: _ => IsPathSeparator c
  end.

(** The output buffer of [Clean] is kept reversed: its head is the
    byte written last and its length is the write index [w].

    [backtrack dotdot dropped out] is the inner loop of the [..] case,
    [for out.w > dotdot && !os.IsPathSeparator(out.index(out.w)) { out.w-- }],
    where [dropped] is the byte at index [out.w]. *)
Fixpoint backtrack (dotdot : nat) (dropped : ascii) (out : list ascii)
  : list ascii :=
  match out with
  | [] => []
  | c :: out' =>
      if (dotdot <? List.length out)%nat && negb (IsPathSeparator dropped)
      then backtrack dotdot c out'
      else out
  end.

(** The main loop of [Clean].  [inElem] is true while the bytes of a
    real path element are being copied (the inner [for] of the default
    case); [path] is the input from the read index on. *)
Fixpoint cleanLoop (rooted inElem : bool) (path out : list ascii)
  (dotdot : nat) {struct path} : list ascii :=
  match path with
  | [] => out
  | c :: rest =>
      if inElem then
        if IsPathSeparator c
        then cleanLoop rooted false rest out dotdot
        else cleanLoop rooted true rest (c :: out) dotdot
      else if IsPathSeparator c then
        (* empty path element *)
        cleanLoop rooted false rest out dotdot
      else if isDot c && atElemEnd rest then
        (* . element *)
        cleanLoop rooted false rest out dotdot
      else
        match rest with
        | c' :: rest' =>
            if isDot c && isDot c' && atElemEnd rest' then
              (* .. element: remove to last separator *)
              if (dotdot <? List.length out)%nat then
                match out with
                | d :: out' =>
                    cleanLoop rooted false rest' (backtrack dotdot d out') dotdot
                | [] => cleanLoop rooted false rest' out dotdot
                end
              else if negb rooted then
                let out1 :=
                  if (0 <? List.length out)%nat then Separator :: out else out in
                let out2 := "."%char :: "."%char :: out1 in
                cleanLoop rooted false rest' out2 (List.length out2)
              else cleanLoop rooted false rest' out dotdot
            else
              let out1 :=
                if (rooted && negb (List.length out =? 1)%nat)
                   || (negb rooted && negb (List.length out =? 0)%nat)
                then Separator :: out else out in
              cleanLoop rooted true rest (c :: out1) dotdot
        | [] =>
            let out1 :=
              if (rooted && negb (List.length out =? 1)%nat)
                 || (negb rooted && negb (List.length out =? 0)%nat)
              then Separator :: out else out in
            cleanLoop rooted true rest (c :: out1) dotdot
        end
  end.

Definition cleanBytes (path : list ascii) : list ascii :=
  match path with
  | [] => ["."%char]
  | c :: rest =>
      let rooted := IsPathSeparator c in
      let out :=
        if rooted
        then cleanLoop true false rest [Separator] 1
        else cleanLoop false false path [] 0 in
      match out with
      | [] => ["."%char]
      | _ => rev out
      end
  end.

(** [dropElem rpath]: on the reversed path, move the index [i] left
    while it is on a byte that is not a separator. *)
Fixpoint dropElem (rpath : list ascii) : list ascii :=
  match rpath with
  | [] => []
  | c :: rest => if IsPathSeparator c then rpath else dropElem rest
  end.

Definition dirBytes (path : list ascii) : list ascii :=
  cleanBytes (rev (dropElem (rev path))).

(** Strip trailing slashes, on the reversed path. *)
Fixpoint dropSeps (rpath : list ascii) : list ascii :=
  match rpath with
  | [] => []
  | c :: rest => if IsPathSeparator c then dropSeps rest else rpath
  end.

(** The bytes after the last separator, on the reversed path. *)
Fixpoint lastElem (rpath : list ascii) : list ascii :=
  match rpath with
  | [] => []
  | c :: rest => if IsPathSeparator c then [] else c :: lastElem rest
  end.

Definition baseBytes (path : list ascii) : list ascii :=
  match path with
  | [] => ["."%char]
  | _ =>
      match rev (lastElem (dropSeps (rev path))) with
      | [] => [Separator]
      | b => b
      end
  end.

(** [strings.Join(elem, "/")] *)
Fixpoint joinSep (elem : list (list ascii)) : list ascii :=
  match elem with
  | [] => []
  | [e] => e
  | e :: es => e ++ Separator :: joinSep es
  end.

Fixpoint joinBytes (elem : list (list ascii)) : list ascii :=
  match elem with
  | [] => []
  | [] :: es => joinBytes es
  | _ :: _ => cleanBytes (joinSep elem)
  end.

Definition Clean (path : string) : string :=
  string_of_list_ascii (cleanBytes (list_ascii_of_string path)).

Definition Dir (path : string) : string :=
  string_of_list_ascii (dirBytes (list_ascii_of_string path)).

Definition Base (path : string) : string :=
  string_of_list_ascii (baseBytes (list_ascii_of_string path)).

Definition Join (elem : list string) : string :=
  string_of_list_ascii (joinBytes (map list_ascii_of_string elem)).

End filepath.

(** [strings.ToLower], on byte strings: the ASCII capitals are mapped to
    the corresponding small letters and every other byte is kept.  (Go
    also lowers letters outside ASCII; technology names are ASCII.) *)
Module gostrings.

Definition lowerByte (c : ascii) : ascii :=
  let n := nat_of_ascii c in
  if (65 <=? n)%nat && (n <=? 90)%nat then ascii_of_nat (n + 32) else c.

Fixpoint ToLower (s : string) : string :=
  match s with
  | EmptyString => EmptyString
  | String c s' => String (lowerByte c) (ToLower s')
  end.

End gostrings.

(** [errorutils.CheckError] of jfrog-client-go: the default handler
    hands back the error it is given, [nil] included. *)
Module errorutils.

Definition CheckError {E : Type} (err : option E) : option E := err.

End errorutils.

(** ** Data model *)

(** A Go result pair [(v, err)]: either a value or an error. *)
Inductive Result (E A : Type) : Type :=
| Ok (v : A)
| Err (e : E).
Arguments Ok {E A} v.
Arguments Err {E A} e.

(** [type Technology string] *)
Definition Technology : Type := string.

Module coreutils.

(** Modelled from the spec: the technology tags of coreutils, declared
    outside this file.  The spec lists Maven, Gradle, Npm, Go, Pip and
    Pipenv and names their config files by the lower-case tag. *)
Definition Maven : Technology := "maven".
Definition Gradle : Technology := "gradle".
Definition Npm : Technology := "npm".
Definition Go : Technology := "go".
Definition Pip : Technology := "pip".
Definition Pipenv : Technology := "pipenv".

End coreutils.

Definition buildFileName : string := "build.yaml".

Record ProjectInitCommand : Type := {
  projectPath : string;
  serverId : string
}.

Definition NewProjectInitCommand : ProjectInitCommand :=
  {| projectPath := ""; serverId := "" |}.

Definition SetProjectPath (pic : ProjectInitCommand) (path : string)
  : ProjectInitCommand :=
  {| projectPath := path; serverId := serverId pic |}.

Definition SetServerId (pic : ProjectInitCommand) (id : string)
  : ProjectInitCommand :=
  {| projectPath := projectPath pic; serverId := id |}.

(** The fields [Version], [ConfigType] and [BuildName]; they carry a
    prefix because [ConfigFile] has fields of the same names. *)
Record BuildConfigFile : Type := {
  bcVersion : Z;
  bcConfigType : string;
  bcBuildName : string
}.

Module config.

(** Modelled from the spec: the server details of package config; only
    the server identifier is read. *)
Record ServerDetails : Type := { ServerId : string }.

End config.

(** Modelled from the spec: a resolver or deployer repository
    reference, [{serverId, repo | releaseRepo + snapshotRepo}].  A field
    holding the empty string is left out of the YAML output. *)
Record Repository : Type := {
  Repo : string;
  ServerId : string;
  SnapshotRepo : string;
  ReleaseRepo : string
}.

(** Modelled from the spec: the deployment config record,
    [{version, type, resolver, deployer}]. *)
Record ConfigFile : Type := {
  Version : Z;
  ConfigType : string;
  Resolver : Repository;
  Deployer : Repository
}.

(** Field assignments. *)
Definition setRepo (r : Repository) (v : string) : Repository :=
  {| Repo := v; ServerId := ServerId r;
     SnapshotRepo := SnapshotRepo r; ReleaseRepo := ReleaseRepo r |}.

Definition setSnapshotRepo (r : Repository) (v : string) : Repository :=
  {| Repo := Repo r; ServerId := ServerId r;
     SnapshotRepo := v; ReleaseRepo := ReleaseRepo r |}.

Definition setReleaseRepo (r : Repository) (v : string) : Repository :=
  {| Repo := Repo r; ServerId := ServerId r;
     SnapshotRepo := SnapshotRepo r; ReleaseRepo := v |}.

Definition setResolver (c : ConfigFile) (r : Repository) : ConfigFile :=
  {| Version := Version c; ConfigType := ConfigType c;
     Resolver := r; Deployer := Deployer c |}.

Definition setDeployer (c : ConfigFile) (r : Repository) : ConfigFile :=
  {| Version := Version c; ConfigType := ConfigType c;
     Resolver := Resolver c; Deployer := r |}.

(** ** Calls to the collaborators *)

Inductive Call : Type :=
| CallGetSpecificConfig (id : string) (b1 b2 : bool)
| CallDetectTechnologies (path : string) (isCiSetup recursive : bool)
| CallCreateDefaultLocalRepo (tech : Technology) (id : string)
| CallCreateDefaultRemoteRepo (tech : Technology) (id : string)
| CallCreateDefaultVirtualRepo (tech : Technology) (id : string)
| CallCreateDirIfNotExist (dir : string)
| CallWriteFile (filename data : string) (perm : Z)
| CallPrintln
| CallPrintTable (a b c : string).

(** A call together with the error it returned, if any. *)
Record Event (E : Type) : Type := { call : Call; failure : option E }.
Arguments call {E} _.
Arguments failure {E} _.
Arguments Build_Event {E} _ _.

(** Everything the command reaches outside this file, over a world [W]
    and an error type [E]. *)
Record Collaborators (W E : Type) : Type := {
  (* coreutils *)
  DetectTechnologies :
    string -> bool -> bool -> W -> Result E (gmap Technology bool) * W;
  PrintTable : string -> string -> string -> W -> option E * W;
  PrintBold : string -> string;
  PrintTitle : string -> string;
  PrintComment : string -> string;
  PrintLink : string -> string;
  GettingStartedGuideUrl : string;
  GetFeedbackMessage : string;
  (* config *)
  GetSpecificConfig : string -> bool -> bool -> W -> Result E config.ServerDetails * W;
  (* package project, repository creation *)
  CreateDefaultLocalRepo : Technology -> string -> W -> option E * W;
  CreateDefaultRemoteRepo : Technology -> string -> W -> option E * W;
  CreateDefaultVirtualRepo : Technology -> string -> W -> option E * W;
  MavenVirtualDefaultName : string;
  GradleVirtualDefaultName : string;
  NpmVirtualDefaultName : string;
  GoVirtualDefaultName : string;
  PypiVirtualDefaultName : string;
  (* artifactory/commands/utils *)
  BuildConfVersion : Z;
  (* fileutils, ioutil, fmt, yaml *)
  CreateDirIfNotExist : string -> W -> option E * W;
  WriteFile : string -> string -> Z -> W -> option E * W;
  Println : W -> W;
  MarshalBuildConfigFile : BuildConfigFile -> Result E string;
  MarshalConfigFile : ConfigFile -> Result E string;
  (* the runtime's choice of the order in which a [range] visits a map *)
  rangeSeed : W -> nat * W
}.

Arguments DetectTechnologies {W E} _.
Arguments PrintTable {W E} _.
Arguments PrintBold {W E} _.
Arguments PrintTitle {W E} _.
Arguments PrintComment {W E} _.
Arguments PrintLink {W E} _.
Arguments GettingStartedGuideUrl {W E} _.
Arguments GetFeedbackMessage {W E} _.
Arguments GetSpecificConfig {W E} _.
Arguments CreateDefaultLocalRepo {W E} _.
Arguments CreateDefaultRemoteRepo {W E} _.
Arguments CreateDefaultVirtualRepo {W E} _.
Arguments MavenVirtualDefaultName {W E} _.
Arguments GradleVirtualDefaultName {W E} _.
Arguments NpmVirtualDefaultName {W E} _.
Arguments GoVirtualDefaultName {W E} _.
Arguments PypiVirtualDefaultName {W E} _.
Arguments BuildConfVersion {W E} _.
Arguments CreateDirIfNotExist {W E} _.
Arguments WriteFile {W E} _.
Arguments Println {W E} _.
Arguments MarshalBuildConfigFile {W E} _.
Arguments MarshalConfigFile {W E} _.
Arguments rangeSeed {W E} _.

(** ** The monad of the command

    A computation takes the world and returns its value, the new world
    and the events it caused, oldest first. *)

Definition M (W E A : Type) : Type := W -> A * W * list (Event E).

Definition ret {W E A} (a : A) : M W E A := fun w => (a, w, []).

Definition bind {W E A B} (m : M W E A) (f : A -> M W E B) : M W E B :=
  fun w =>
    let '(a, w1, t1) := m w in
    let '(b, w2, t2) := f a w1 in
    (b, w2, t1 ++ t2).

Notation "'let*' x ':=' m 'in' k" := (bind m (fun x => k))
  (at level 10, x name, m at level 100, k at level 200).

(** [err := f(); if err != nil { return err }; k] *)
Notation "'try!' m 'in' k" :=
  (bind m (fun err => match err with Some e => ret (Some e) | None => k end))
  (at level 10, m at level 100, k at level 200).

(** A call that may fail with an error only. *)
Definition callErr {W E} (c : Call) (h : W -> option E * W) : M W E (option E) :=
  fun w => let '(err, w') := h w in (err, w', [Build_Event c err]).

(** A call that returns a result pair. *)
Definition callRes {W E A} (c : Call) (h : W -> Result E A * W)
  : M W E (Result E A) :=
  fun w =>
    let '(r, w') := h w in
    (r, w', [Build_Event c match r with Ok _ => None | Err e => Some e end]).

(** The [n]-th order of visit of the keys of a map, among all the
    permutations of the keys. *)
Definition visitOrder {K : Type} (n : nat) (keys : list K) : list K :=
  match permutations keys !! n with
  | Some order => order
  | None => keys
  end.

(** A silent step of the runtime. *)
Definition silent {W E A} (h : W -> A * W) : M W E A :=
  fun w => let '(a, w') := h w in (a, w', []).

Definition result {W E A} (x : A * W * list (Event E)) : A := fst (fst x).
Definition world {W E A} (x : A * W * list (Event E)) : W := snd (fst x).
Definition trace {W E A} (x : A * W * list (Event E)) : list (Event E) := snd x.

(** The line feed. *)
Definition nl : string := String (ascii_of_nat 10) EmptyString.

(** ** The command *)

Section ProjectInit.

Context {W E : Type} (env : Collaborators W E).

Abbreviation M := (M W E).
Abbreviation TechMap := (gmap Technology bool).

(** *** The collaborators, as monadic calls *)

Definition getSpecificConfig (id : string) (b1 b2 : bool) : M (Result E config.ServerDetails) :=
  callRes (CallGetSpecificConfig id b1 b2) (GetSpecificConfig env id b1 b2).

Definition detect (path : string) (isCiSetup recursive : bool) : M (Result E TechMap) :=
  callRes (CallDetectTechnologies path isCiSetup recursive)
    (DetectTechnologies env path isCiSetup recursive).

Definition createDefaultLocalRepo (tech : Technology) (id : string) : M (option E) :=
  callErr (CallCreateDefaultLocalRepo tech id) (CreateDefaultLocalRepo env tech id).

Definition createDefaultRemoteRepo (tech : Technology) (id : string) : M (option E) :=
  callErr (CallCreateDefaultRemoteRepo tech id) (CreateDefaultRemoteRepo env tech id).

Definition createDefaultVirtualRepo (tech : Technology) (id : string) : M (option E) :=
  callErr (CallCreateDefaultVirtualRepo tech id) (CreateDefaultVirtualRepo env tech id).

Definition createDirIfNotExist (dir : string) : M (option E) :=
  callErr (CallCreateDirIfNotExist dir) (CreateDirIfNotExist env dir).

Definition writeFile (filename data : string) (perm : Z) : M (option E) :=
  callErr (CallWriteFile filename data perm) (WriteFile env filename data perm).

Definition println : M unit :=
  fun w => (tt, Println env w, [Build_Event CallPrintln None]).

Definition printTable (a b c : string) : M (option E) :=
  callErr (CallPrintTable a b c) (PrintTable env a b c).

(** [for tech := range m]: Go visits the keys of a map in an order
    that is not specified.  The runtime picks one of the permutations
    of the keys. *)
Definition range (m : TechMap) : M (list Technology) :=
  silent (fun w =>
    let '(n, w') := rangeSeed env w in
    (visitOrder n (map_to_list m).*1, w')).

(** *** detectTechnologies *)

Definition detectTechnologies (pic : ProjectInitCommand) : M (Result E TechMap) :=
  let* r := detect (projectPath pic) false false in
  match r with
  | Err e => ret (Err e)
  | Ok technologiesMap =>
      (* In case no technologies were detected in the root directory,
         try again recursively. *)
      if (size technologiesMap =? 0)%nat then
        let* r := detect (projectPath pic) false true in
        match r with
        | Err e => ret (Err e)
        | Ok technologiesMap => ret (Ok technologiesMap)
        end
      else ret (Ok technologiesMap)
  end.

(** *** createBuildConfig *)

Definition jfrogProjectDir (path : string) : string :=
  filepath.Join [path; ".jfrog"; "projects"].

Definition buildConfigFile (pic : ProjectInitCommand) : BuildConfigFile :=
  let projectDirName := filepath.Base (filepath.Dir (projectPath pic)) in
  {| bcVersion := 1; bcConfigType := "build"; bcBuildName := projectDirName |}.

Definition createBuildConfig (pic : ProjectInitCommand) : M (option E) :=
  let jfrogProjectDir := jfrogProjectDir (projectPath pic) in
  let* err := createDirIfNotExist jfrogProjectDir in
  match err with
  | Some e => ret (errorutils.CheckError (Some e))
  | None =>
      let configFilePath := filepath.Join [jfrogProjectDir; buildFileName] in
      match MarshalBuildConfigFile env (buildConfigFile pic) with
      | Err e => ret (errorutils.CheckError (Some e))
      | Ok resBytes =>
          let* err := writeFile configFilePath resBytes 420 in
          ret (errorutils.CheckError err)
      end
  end.

(** *** createDefaultReposIfNeeded *)

Definition createDefaultReposIfNeeded (tech : Technology) (id : string) : M (option E) :=
  try! createDefaultLocalRepo tech id in
  try! createDefaultRemoteRepo tech id in
  createDefaultVirtualRepo tech id.

(** *** createProjectBuildConfigs *)

(** The record built between the directory creation and the
    marshalling: the two assignments of [Resolver] and [Deployer] and
    the [switch] on the technology. *)
Definition projectConfigFile (tech : Technology) (id : string) : ConfigFile :=
  let techName := gostrings.ToLower tech in
  let configFile :=
    {| Version := BuildConfVersion env; ConfigType := techName;
       Resolver := {| Repo := ""; ServerId := ""; SnapshotRepo := ""; ReleaseRepo := "" |};
       Deployer := {| Repo := ""; ServerId := ""; SnapshotRepo := ""; ReleaseRepo := "" |} |} in
  let configFile :=
    setResolver configFile
      {| Repo := ""; ServerId := id; SnapshotRepo := ""; ReleaseRepo := "" |} in
  let configFile :=
    setDeployer configFile
      {| Repo := ""; ServerId := id; SnapshotRepo := ""; ReleaseRepo := "" |} in
  if String.eqb tech coreutils.Maven then
    let name := MavenVirtualDefaultName env in
    let configFile := setResolver configFile (setReleaseRepo (Resolver configFile) name) in
    let configFile := setResolver configFile (setSnapshotRepo (Resolver configFile) name) in
    let configFile := setDeployer configFile (setReleaseRepo (Deployer configFile) name) in
    setDeployer configFile (setSnapshotRepo (Deployer configFile) name)
  else if String.eqb tech coreutils.Gradle then
    let name := GradleVirtualDefaultName env in
    let configFile := setResolver configFile (setRepo (Resolver configFile) name) in
    setDeployer configFile (setRepo (Deployer configFile) name)
  else if String.eqb tech coreutils.Npm then
    let name := NpmVirtualDefaultName env in
    let configFile := setResolver configFile (setRepo (Resolver configFile) name) in
    setDeployer configFile (setRepo (Deployer configFile) name)
  else if String.eqb tech coreutils.Go then
    let name := GoVirtualDefaultName env in
    let configFile := setResolver configFile (setRepo (Resolver configFile) name) in
    setDeployer configFile (setRepo (Deployer configFile) name)
  else if String.eqb tech coreutils.Pipenv || String.eqb tech coreutils.Pip then
    let name := PypiVirtualDefaultName env in
    let configFile := setResolver configFile (setRepo (Resolver configFile) name) in
    setDeployer configFile (setRepo (Deployer configFile) name)
  else configFile.

Definition projectConfigFilePath (tech : Technology) (path : string) : string :=
  filepath.Join [jfrogProjectDir path; gostrings.ToLower tech +:+ ".yaml"].

Definition createProjectBuildConfigs (tech : Technology) (path id : string)
  : M (option E) :=
  let jfrogProjectDir := jfrogProjectDir path in
  let* err := createDirIfNotExist jfrogProjectDir in
  match err with
  | Some e => ret (errorutils.CheckError (Some e))
  | None =>
      let configFilePath := projectConfigFilePath tech path in
      match MarshalConfigFile env (projectConfigFile tech id) with
      | Err e => ret (errorutils.CheckError (Some e))
      | Ok resBytes =>
          let* err := writeFile configFilePath resBytes 420 in
          ret (errorutils.CheckError err)
      end
  end.

(** *** The summary *)

Definition techBuildMessage (tech : Technology) : string :=
  if String.eqb tech coreutils.Maven then "jf mvn install deploy" +:+ nl
  else if String.eqb tech coreutils.Gradle then "jf gradle artifactoryP" +:+ nl
  else if String.eqb tech coreutils.Npm then
    "jf npm install" +:+ nl +:+ "jf npm publish" +:+ nl
  else if String.eqb tech coreutils.Go then
    "jf go build" +:+ nl +:+ "jf go-publish v1.0.0" +:+ nl
  else if String.eqb tech coreutils.Pip then
    "jf pip install" +:+ nl +:+ "jf rt u path/to/package/file default-pypi-local"
    +:+ PrintComment env " # Publish your pip package" +:+ nl
  else if String.eqb tech coreutils.Pipenv then
    "jf pipenv install" +:+ nl +:+ "jf rt u path/to/package/file default-pypi-local"
    +:+ PrintComment env " # Publish your pipenv package" +:+ nl
  else "".

Definition createBuildMessage (technologiesMap : TechMap) : M string :=
  let* techs := range technologiesMap in
  let message :=
    fold_left (fun message tech => message +:+ techBuildMessage tech) techs "" in
  if String.eqb message "" then ret message
  else
    ret (PrintTitle env "Build the code & deploy the packages by running"
      +:+ nl +:+ message +:+ nl
      +:+ PrintTitle env "Publish the build-info to Artifactory"
      +:+ nl +:+ "jf rt bp" +:+ nl +:+ nl).

Definition createSummarizeMessage (technologiesMap : TechMap) : M string :=
  let* buildMessage := createBuildMessage technologiesMap in
  ret (PrintBold env ("This project is initialized!" +:+ nl)
    +:+ PrintBold env "The project config is stored inside the .jfrog directory."
    +:+ nl +:+ nl
    +:+ PrintTitle env "Audit your project for security vulnerabilities by running"
    +:+ nl
    +:+ "jf audit" +:+ nl +:+ nl
    +:+ PrintTitle env
          "Scan any software package on this machine for security vulnerabilities by running"
    +:+ nl
    +:+ "jf scan path/to/dir/or/package" +:+ nl +:+ nl
    +:+ PrintTitle env
          "If you're using VS Code, IntelliJ IDEA, WebStorm, PyCharm, Android Studio or GoLand"
    +:+ nl
    +:+ "1. Open the IDE" +:+ nl
    +:+ "2. Install the JFrog extension or plugin" +:+ nl
    +:+ "3. View the JFrog panel"
    +:+ nl +:+ nl
    +:+ buildMessage
    +:+ PrintTitle env "Read more using this link:"
    +:+ nl +:+ PrintLink env (GettingStartedGuideUrl env)
    +:+ nl +:+ nl +:+ GetFeedbackMessage env).

(** *** Run *)

(** The body of the [for techName := range technologiesMap] loop. *)
Definition initTechnology (techName : Technology) (pic : ProjectInitCommand)
  : M (option E) :=
  (* First create repositories for the detected technology. *)
  try! createDefaultReposIfNeeded techName (serverId pic) in
  createProjectBuildConfigs techName (projectPath pic) (serverId pic).

(** The loop, over the keys in the order of the visit: an error of the
    body is returned at once. *)
Fixpoint initTechnologies (techs : list Technology) (pic : ProjectInitCommand)
  : M (option E) :=
  match techs with
  | [] => ret None
  | techName :: techs' =>
      try! initTechnology techName pic in
      initTechnologies techs' pic
  end.

(** [Run] from the detection on, once the server identifier is set. *)
Definition runWithServer (pic : ProjectInitCommand) : M (option E) :=
  let* r := detectTechnologies pic in
  match r with
  | Err e => ret (Some e)
  | Ok technologiesMap =>
      let* techs := range technologiesMap in
      try! initTechnologies techs pic in
      (* Create build config *)
      try! createBuildConfig pic in
      let* _ := println in
      let* msg := createSummarizeMessage technologiesMap in
      let* err := printTable "" "" msg in
      let* _ := println in
      ret err
  end.

(** [Run] returns the error and leaves the command with the server
    identifier it used. *)
Definition Run (pic : ProjectInitCommand) : M (ProjectInitCommand * option E) :=
  if String.eqb (serverId pic) "" then
    let* r := getSpecificConfig "" true false in
    match r with
    | Err e => ret (pic, Some e)
    | Ok defaultServer =>
        let pic := SetServerId pic (config.ServerId defaultServer) in
        let* err := runWithServer pic in
        ret (pic, err)
    end
  else
    let* err := runWithServer pic in
    ret (pic, err).

Definition CommandName (pic : ProjectInitCommand) : string := "project_init".

Definition ServerDetails (pic : ProjectInitCommand) : M (Result E config.ServerDetails) :=
  getSpecificConfig "" true false.

End ProjectInit.


(** ** A test double

    A stand-in for the collaborators: the world counts the calls made,
    detection finds [root] in the project directory and [deep] below it,
    and [failing] tells which calls fail, and with which error. *)
Module Fake.

Definition showVersion (v : Z) : string :=
  if (v =? 1)%Z then "1" else if (v =? 2)%Z then "2" else "n".

Definition field (key value : string) : string :=
  if String.eqb value "" then "" else key +:+ ": " +:+ value +:+ nl.

Definition showRepository (r : Repository) : string :=
  field "  repo" (Repo r) +:+ field "  serverId" (ServerId r)
  +:+ field "  snapshotRepo" (SnapshotRepo r)
  +:+ field "  releaseRepo" (ReleaseRepo r).

Definition showConfigFile (c : ConfigFile) : string :=
  field "version" (showVersion (Version c)) +:+ field "type" (ConfigType c)
  +:+ "resolver:" +:+ nl +:+ showRepository (Resolver c)
  +:+ "deployer:" +:+ nl +:+ showRepository (Deployer c).

Definition showBuildConfigFile (c : BuildConfigFile) : string :=
  field "version" (showVersion (bcVersion c)) +:+ field "type" (bcConfigType c)
  +:+ field "name" (bcBuildName c).

Definition answer (failing : Call -> option string) (c : Call) (w : nat)
  : option string * nat :=
  (failing c, S w).

Definition env (root deep : gmap Technology bool) (failing : Call -> option string)
  : Collaborators nat string :=
  {| DetectTechnologies path isCiSetup recursive w :=
       (match failing (CallDetectTechnologies path isCiSetup recursive) with
        | Some e => Err e
        | None => Ok (if recursive then deep else root)
        end, S w);
     PrintTable a b c := answer failing (CallPrintTable a b c);
     PrintBold s := s;
     PrintTitle s := s;
     PrintComment s := s;
     PrintLink s := s;
     GettingStartedGuideUrl := "https://example.org/guide";
     GetFeedbackMessage := "feedback";
     GetSpecificConfig id b1 b2 w :=
       (match failing (CallGetSpecificConfig id b1 b2) with
        | Some e => Err e
        | None => Ok {| config.ServerId := "default-server" |}
        end, S w);
     CreateDefaultLocalRepo tech id := answer failing (CallCreateDefaultLocalRepo tech id);
     CreateDefaultRemoteRepo tech id := answer failing (CallCreateDefaultRemoteRepo tech id);
     CreateDefaultVirtualRepo tech id := answer failing (CallCreateDefaultVirtualRepo tech id);
     MavenVirtualDefaultName := "virtual-maven";
     GradleVirtualDefaultName := "virtual-gradle";
     NpmVirtualDefaultName := "virtual-npm";
     GoVirtualDefaultName := "virtual-go";
     PypiVirtualDefaultName := "virtual-pypi";
     BuildConfVersion := 1;
     CreateDirIfNotExist dir := answer failing (CallCreateDirIfNotExist dir);
     WriteFile filename data perm := answer failing (CallWriteFile filename data perm);
     Println w := S w;
     MarshalBuildConfigFile c := Ok (showBuildConfigFile c);
     MarshalConfigFile c := Ok (showConfigFile c);
     rangeSeed w := (w, w) |}.

Definition noFailure (c : Call) : option string := None.


Definition remoteFails (c : Call) : option string :=
  match c with
  | CallCreateDefaultRemoteRepo _ _ => Some "remote repository refused"
  | _ => None
  end.

Definition npmRoot : gmap Technology bool := {[ coreutils.Npm := true ]}.

Definition myapp : ProjectInitCommand :=
  {| projectPath := "/tmp/p/myapp"; serverId := "local-server" |}.

End Fake.

(** ** Facts about the path functions *)
Module PathFacts.

Import filepath.

(** The model against the tables of Go's path tests. *)
Example Clean_table :
  map Clean
    ["abc"; "abc/def"; "."; ".."; "../../abc"; "/abc"; "/"; "";
     "abc/"; "a/b/c/"; "./"; "../../"; "/abc/"; "abc//def//ghi"; "abc//";
     "abc/./def"; "/./abc/def"; "abc/.";
     "abc/def/ghi/../jkl"; "abc/def/../ghi/../jkl"; "abc/def/../.."; "/abc/def/../..";
     "abc/def/../../.."; "/abc/def/../../.."; "abc/def/../../../ghi/jkl/../../../mno";
     "/../abc"; "abc/./../def"; "abc//./../def"; "abc/../../././../def"]
  = ["abc"; "abc/def"; "."; ".."; "../../abc"; "/abc"; "/"; ".";
     "abc"; "a/b/c"; "."; "../.."; "/abc"; "abc/def/ghi"; "abc";
     "abc/def"; "/abc/def"; "abc";
     "abc/def/jkl"; "abc/jkl"; "."; "/";
     ".."; "/"; "../../mno";
     "/abc"; "def"; "def"; "../../def"].
Proof. vm_compute. reflexivity. Qed.

Example Base_table :
  map Base [""; "."; "/."; "/"; "////"; "x/"; "abc"; "abc/def"; "a/b/.x"; "a/b/c."; "a/b/c.x"]
  = ["."; "."; "."; "/"; "/"; "x"; "abc"; "def"; ".x"; "c."; "c.x"].
Proof. vm_compute. reflexivity. Qed.

Example Dir_table :
  map Dir [""; "."; "/."; "/"; "/foo"; "x/"; "abc"; "abc/def"; "a/b/.x"; "a/b/c."; "////"]
  = ["."; "."; "/"; "/"; "/"; "x"; "."; "abc"; "a/b"; "a/b"; "/"].
Proof. vm_compute. reflexivity. Qed.

Example Join_table :
  map Join
    [[]; [""]; ["/"]; ["a"]; ["a"; "b"]; ["a"; ""]; [""; "b"]; ["/"; "a"]; ["/"; "a/b"];
     ["/"; ""]; ["/a"; "b"]; ["a"; "/b"]; ["/a"; "/b"]; ["a/"; "b"]; ["a/"; ""]; [""; ""];
     ["//"; "a"]]
  = [""; ""; "/"; "a"; "a/b"; "a"; "b"; "/a"; "/a/b";
     "/"; "/a/b"; "a/b"; "/a/b"; "a/b"; "a"; "";
     "/a"].
Proof. vm_compute. reflexivity. Qed.

#[local] Arguments IsPathSeparator : simpl never.
#[local] Arguments isDot : simpl never.

Definition notSeparator (c : ascii) : bool := negb (IsPathSeparator c).

(** A plain path element: not empty, without separator, and neither
    [.] nor [..]. *)
Definition isName (n : list ascii) : bool :=
  match n with
  | [] => false
  | [c] => notSeparator c && negb (isDot c)
  | [c; c'] => notSeparator c && notSeparator c' && negb (isDot c && isDot c')
  | _ => forallb notSeparator n
  end.

Lemma isName_notSeparator (n : list ascii) :
  isName n = true -> forallb notSeparator n = true.
Proof.
  destruct n as [|c [|c' [|c'' n]]]; cbn; intros H; try discriminate.
  - apply andb_true_iff in H as [-> _]. reflexivity.
  - apply andb_true_iff in H as [H _]. apply andb_true_iff in H as [-> ->].
    reflexivity.
  - exact H.
Qed.

Lemma isName_nonempty (n : list ascii) : isName n = true -> n <> [].
Proof. destruct n; [discriminate|discriminate]. Qed.

(** Copying the bytes of an element, up to its end. *)
Lemma cleanLoop_copy (rooted : bool) (n rest out : list ascii) (dotdot : nat) :
  forallb notSeparator n = true ->
  atElemEnd rest = true ->
  cleanLoop rooted true (n ++ rest) out dotdot =
  cleanLoop rooted false rest (rev n ++ out) dotdot.
Proof.
  intros Hn Hrest. revert out. induction n as [|c n IH]; intros out.
  - cbn. destruct rest as [|c rest]; [reflexivity|].
    cbn in Hrest. cbn. rewrite Hrest. reflexivity.
  - cbn in Hn. apply andb_true_iff in Hn as [Hc Hn].
    cbn [app cleanLoop]. unfold notSeparator in Hc.
    apply negb_true_iff in Hc. rewrite Hc, (IH Hn).
    cbn [rev]. rewrite <- app_assoc. reflexivity.
Qed.

(** The separator that [Clean] writes before an element. *)
Definition withSeparator (rooted : bool) (out : list ascii) : list ascii :=
  if (rooted && negb (List.length out =? 1)%nat)
     || (negb rooted && negb (List.length out =? 0)%nat)
  then Separator :: out else out.

(** One plain element is copied to the output. *)
Lemma cleanLoop_name (rooted : bool) (n rest out : list ascii) (dotdot : nat) :
  isName n = true ->
  atElemEnd rest = true ->
  cleanLoop rooted false (n ++ rest) out dotdot =
  cleanLoop rooted false rest (rev n ++ withSeparator rooted out) dotdot.
Proof.
  intros Hn Hrest. pose proof (isName_notSeparator n Hn) as Hns.
  destruct n as [|c n]; [discriminate|].
  cbn in Hns. apply andb_true_iff in Hns as [Hc Hns].
  unfold notSeparator in Hc. apply negb_true_iff in Hc.
  cbn [app cleanLoop]. rewrite Hc.
  assert (Hdot : isDot c && atElemEnd (n ++ rest) = false).
  { destruct n as [|c' n].
    - cbn in Hn. apply andb_true_iff in Hn as [_ Hn].
      apply negb_true_iff in Hn. rewrite Hn. reflexivity.
    - cbn in Hns. apply andb_true_iff in Hns as [Hc' _].
      unfold notSeparator in Hc'. apply negb_true_iff in Hc'.
      cbn. rewrite Hc'. apply andb_false_r. }
  rewrite Hdot.
  assert (Hcopy : cleanLoop rooted true (n ++ rest) (c :: withSeparator rooted out) dotdot
                  = cleanLoop rooted false rest
                      (rev (c :: n) ++ withSeparator rooted out) dotdot).
  { rewrite (cleanLoop_copy rooted n rest _ dotdot Hns Hrest).
    cbn [rev]. rewrite <- app_assoc. reflexivity. }
  destruct (n ++ rest) as [|c' rest'] eqn:Hnr; [exact Hcopy|].
  assert (Hdd : isDot c && isDot c' && atElemEnd rest' = false).
  { destruct n as [|c1 n].
    - cbn in Hnr. subst rest. cbn in Hrest.
      assert (isDot c' = false) as ->; [|rewrite andb_false_r; reflexivity].
      unfold IsPathSeparator, isDot in *. apply Ascii.eqb_eq in Hrest. subst c'.
      reflexivity.
    - cbn in Hnr. injection Hnr as <- <-.
      destruct n as [|c2 n].
      + cbn in Hn. apply andb_true_iff in Hn as [_ Hn].
        apply negb_true_iff in Hn. rewrite Hn. reflexivity.
      + cbn in Hns. apply andb_true_iff in Hns as [_ Hns].
        apply andb_true_iff in Hns as [Hc2 _].
        unfold notSeparator in Hc2. apply negb_true_iff in Hc2.
        cbn. rewrite Hc2. apply andb_false_r. }
  rewrite Hdd. exact Hcopy.
Qed.

Lemma cleanLoop_separators (rooted : bool) (seps out : list ascii) (dotdot : nat) :
  forallb IsPathSeparator seps = true ->
  cleanLoop rooted false seps out dotdot = out.
Proof.
  induction seps as [|c seps IH]; [reflexivity|].
  cbn [forallb]. intros [Hc Hs]%andb_true_iff.
  cbn [cleanLoop]. rewrite Hc. apply IH, Hs.
Qed.

Lemma atElemEnd_separators (seps : list ascii) :
  forallb IsPathSeparator seps = true -> atElemEnd seps = true.
Proof.
  destruct seps as [|c seps]; [reflexivity|].
  cbn [forallb atElemEnd]. intros [Hc _]%andb_true_iff. exact Hc.
Qed.

Lemma withSeparator_length (rooted : bool) (out : list ascii) :
  (List.length out <= List.length (withSeparator rooted out))%nat.
Proof.
  unfold withSeparator. destruct (_ || _); cbn; lia.
Qed.

(** After an element has been written, the next one is preceded by a
    separator. *)
Lemma withSeparator_after (rooted : bool) (n out : list ascii) :
  n <> [] ->
  (rooted = true -> 1 <= List.length out)%nat ->
  withSeparator rooted (rev n ++ withSeparator rooted out)
  = Separator :: rev n ++ withSeparator rooted out.
Proof.
  intros Hn Hout. pose proof (withSeparator_length rooted out) as Hlen.
  assert (Hn' : (1 <= List.length n)%nat).
  { destruct n; [congruence|cbn; lia]. }
  unfold withSeparator at 1.
  rewrite length_app, length_rev.
  destruct rooted.
  - specialize (Hout eq_refl). cbn [andb negb orb].
    rewrite orb_false_r.
    destruct (Nat.eqb_spec (List.length n + List.length (withSeparator true out)) 1);
      [lia|reflexivity].
  - cbn [andb negb orb].
    destruct (Nat.eqb_spec (List.length n + List.length (withSeparator false out)) 0);
      [lia|reflexivity].
Qed.

(** The elements of a path of plain names are copied one by one. *)
Lemma cleanLoop_names (rooted : bool) (names : list (list ascii))
  (seps out : list ascii) (dotdot : nat) :
  forallb isName names = true ->
  names <> [] ->
  (rooted = true -> 1 <= List.length out)%nat ->
  forallb IsPathSeparator seps = true ->
  cleanLoop rooted false (joinSep names ++ seps) out dotdot
  = rev (joinSep names) ++ withSeparator rooted out.
Proof.
  intros Hnames Hne Hout Hseps. revert out Hout.
  induction names as [|n names IH]; [congruence|]. intros out Hout.
  cbn [forallb] in Hnames. apply andb_true_iff in Hnames as [Hn Hnames].
  destruct names as [|n' names].
  - cbn [joinSep].
    rewrite cleanLoop_name by auto using atElemEnd_separators.
    apply cleanLoop_separators, Hseps.
  - change (joinSep (n :: n' :: names))
      with (n ++ Separator :: joinSep (n' :: names)).
    rewrite <- app_assoc, <- app_comm_cons.
    rewrite cleanLoop_name by auto.
    cbn [cleanLoop].
    replace (IsPathSeparator Separator) with true by reflexivity.
    rewrite IH; [|exact Hnames|discriminate|].
    + rewrite withSeparator_after by eauto using isName_nonempty.
      rewrite rev_app_distr. cbn [rev]. rewrite <- !app_assoc. reflexivity.
    + intros _. rewrite length_app, length_rev.
      pose proof (isName_nonempty n Hn). destruct n; [congruence|cbn; lia].
Qed.

(** The path made of the names, from the root or not. *)
Definition pathOfBytes (root : bool) (names : list (list ascii)) : list ascii :=
  (if root then [Separator] else []) ++ joinSep names.

Lemma joinSep_nonempty (names : list (list ascii)) :
  forallb isName names = true -> names <> [] ->
  exists c rest, joinSep names = c :: rest /\ IsPathSeparator c = false.
Proof.
  intros Hnames Hne. destruct names as [|n names]; [congruence|].
  cbn [forallb] in Hnames. apply andb_true_iff in Hnames as [Hn _].
  pose proof (isName_notSeparator n Hn) as Hns.
  destruct n as [|c n]; [discriminate|].
  cbn [forallb] in Hns. apply andb_true_iff in Hns as [Hc _].
  unfold notSeparator in Hc. apply negb_true_iff in Hc.
  destruct names; cbn [joinSep app]; eauto.
Qed.

(** [Clean] keeps a path of plain names and drops its trailing
    separators. *)
Lemma cleanBytes_names (root : bool) (names : list (list ascii)) (seps : list ascii) :
  forallb isName names = true ->
  names <> [] ->
  forallb IsPathSeparator seps = true ->
  cleanBytes (pathOfBytes root names ++ seps) = pathOfBytes root names.
Proof.
  intros Hnames Hne Hseps.
  destruct (joinSep_nonempty names Hnames Hne) as (c & rest & Hj & Hc).
  unfold pathOfBytes. destruct root.
  - cbn [app cleanBytes].
    replace (IsPathSeparator Separator) with true by reflexivity.
    rewrite cleanLoop_names by (auto; cbn; lia).
    unfold withSeparator. cbn [List.length Nat.eqb negb andb orb].
    destruct (rev (joinSep names) ++ [Separator]) as [|x xs] eqn:Hx.
    + destruct (rev (joinSep names)); discriminate.
    + rewrite <- Hx, rev_app_distr, rev_involutive. reflexivity.
  - cbn [app]. rewrite Hj. cbn [app cleanBytes]. rewrite Hc, <- Hj.
    change (c :: rest ++ seps) with ((c :: rest) ++ seps). rewrite <- Hj.
    rewrite cleanLoop_names by (auto; discriminate).
    unfold withSeparator. cbn [List.length Nat.eqb negb andb orb].
    rewrite app_nil_r.
    destruct (rev (joinSep names)) as [|x xs] eqn:Hx.
    + apply (f_equal (@rev ascii)) in Hx. rewrite rev_involutive, Hj in Hx.
      discriminate.
    + rewrite <- Hx, rev_involutive. reflexivity.
Qed.

Lemma joinSep_snoc (names : list (list ascii)) (n : list ascii) :
  names <> [] ->
  joinSep (names ++ [n]) = joinSep names ++ Separator :: n.
Proof.
  induction names as [|n1 names IH]; [congruence|]. intros _.
  destruct names as [|n2 names]; [reflexivity|].
  change (joinSep ((n1 :: n2 :: names) ++ [n]))
    with (n1 ++ Separator :: joinSep ((n2 :: names) ++ [n])).
  rewrite IH by discriminate.
  change (joinSep (n1 :: n2 :: names)) with (n1 ++ Separator :: joinSep (n2 :: names)).
  rewrite <- app_assoc. reflexivity.
Qed.

Lemma forallb_snoc {A : Type} (f : A -> bool) (l : list A) (x : A) :
  forallb f (l ++ [x]) = true -> forallb f l = true /\ f x = true.
Proof.
  rewrite forallb_app. cbn. rewrite andb_true_r. apply andb_true_iff.
Qed.

(** Going left from the end of the path over the last element. *)
Lemma dropElem_rev (pre n : list ascii) :
  forallb notSeparator n = true ->
  dropElem (rev (pre ++ Separator :: n)) = Separator :: rev pre.
Proof.
  intros Hn. rewrite rev_app_distr. cbn [rev]. rewrite <- app_assoc. cbn [app].
  rewrite <- (rev_involutive n) in Hn. revert Hn.
  generalize (rev n) as rn. intros rn. induction rn as [|c rn IH].
  - intros _. reflexivity.
  - cbn [rev]. rewrite forallb_app. cbn [forallb].
    intros [Hrn [Hc _]%andb_true_iff]%andb_true_iff.
    unfold notSeparator in Hc. apply negb_true_iff in Hc.
    cbn [app dropElem]. rewrite Hc. apply IH, Hrn.
Qed.

Lemma dropElem_rev_name (n : list ascii) :
  forallb notSeparator n = true -> dropElem (rev n) = [].
Proof.
  intros Hn. rewrite <- (rev_involutive n) in Hn. revert Hn.
  generalize (rev n) as rn. intros rn. induction rn as [|c rn IH].
  - reflexivity.
  - cbn [rev]. rewrite forallb_app. cbn [forallb].
    intros [Hrn [Hc _]%andb_true_iff]%andb_true_iff.
    unfold notSeparator in Hc. apply negb_true_iff in Hc.
    cbn [dropElem]. rewrite Hc. apply IH, Hrn.
Qed.

(** [Dir] of a path ending in a separator only cleans the path. *)
Lemma dirBytes_trailing_separator (path : list ascii) :
  dirBytes (path ++ [Separator]) = cleanBytes (path ++ [Separator]).
Proof.
  unfold dirBytes. rewrite rev_app_distr. cbn [rev app dropElem].
  replace (IsPathSeparator Separator) with true by reflexivity.
  change (Separator :: rev path) with ([Separator] ++ rev path).
  rewrite <- (rev_involutive [Separator]) at 1.
  rewrite <- rev_app_distr, rev_involutive. reflexivity.
Qed.

(** [Dir] of a path of plain names drops the last name. *)
Lemma dirBytes_names (root : bool) (names : list (list ascii)) (n : list ascii) :
  forallb isName (names ++ [n]) = true ->
  names <> [] ->
  dirBytes (pathOfBytes root (names ++ [n])) = pathOfBytes root names.
Proof.
  intros [Hnames Hn]%forallb_snoc Hne.
  unfold dirBytes, pathOfBytes at 1. rewrite joinSep_snoc by exact Hne.
  rewrite app_assoc, dropElem_rev by apply isName_notSeparator, Hn.
  change (Separator :: rev ((if root then [Separator] else []) ++ joinSep names))
    with (rev [Separator] ++ rev ((if root then [Separator] else []) ++ joinSep names)).
  rewrite <- rev_app_distr, rev_involutive.
  apply (cleanBytes_names root names [Separator]); auto.
Qed.

Lemma lastElem_rev (pre n : list ascii) :
  forallb notSeparator n = true ->
  atElemEnd (rev pre) = true ->
  lastElem (rev (pre ++ n)) = rev n.
Proof.
  intros Hn Hpre. rewrite rev_app_distr.
  rewrite <- (rev_involutive n) in Hn. revert Hn.
  generalize (rev n) as rn. intros rn. induction rn as [|c rn IH].
  - intros _. cbn [app]. destruct (rev pre) as [|c r]; [reflexivity|].
    cbn in Hpre. cbn [lastElem]. rewrite Hpre. reflexivity.
  - cbn [rev]. rewrite forallb_app. cbn [forallb].
    intros [Hrn [Hc _]%andb_true_iff]%andb_true_iff.
    unfold notSeparator in Hc. apply negb_true_iff in Hc.
    cbn [app lastElem]. rewrite Hc, (IH Hrn). reflexivity.
Qed.

Lemma dropSeps_rev (path seps : list ascii) :
  forallb IsPathSeparator seps = true ->
  dropSeps (rev (path ++ seps)) = dropSeps (rev path).
Proof.
  intros Hs. rewrite rev_app_distr.
  rewrite <- (rev_involutive seps) in Hs. revert Hs.
  generalize (rev seps) as rs. intros rs. induction rs as [|c rs IH].
  - reflexivity.
  - cbn [rev]. rewrite forallb_app. cbn [forallb].
    intros [Hrs [Hc _]%andb_true_iff]%andb_true_iff.
    cbn [app dropSeps]. rewrite Hc. apply IH, Hrs.
Qed.

(** [Base] of a path that ends with a plain name, and maybe some
    separators after it, is that name. *)
Lemma baseBytes_name (pre n seps : list ascii) :
  isName n = true ->
  atElemEnd (rev pre) = true ->
  forallb IsPathSeparator seps = true ->
  baseBytes ((pre ++ n) ++ seps) = n.
Proof.
  intros Hn Hpre Hseps. pose proof (isName_notSeparator n Hn) as Hns.
  pose proof (isName_nonempty n Hn) as Hne.
  unfold baseBytes.
  destruct ((pre ++ n) ++ seps) as [|x xs] eqn:Hx.
  { destruct pre, n; first [discriminate|congruence]. }
  rewrite <- Hx, dropSeps_rev by exact Hseps.
  assert (Hd : dropSeps (rev (pre ++ n)) = rev (pre ++ n)).
  { rewrite rev_app_distr. destruct (rev n) as [|c rn] eqn:Hr.
    - apply (f_equal (@rev ascii)) in Hr. rewrite rev_involutive in Hr.
      cbn in Hr. congruence.
    - assert (Hc : IsPathSeparator c = false).
      { rewrite <- (rev_involutive n), Hr in Hns. cbn [rev] in Hns.
        rewrite forallb_app in Hns. cbn [forallb] in Hns.
        apply andb_true_iff in Hns as [_ [Hc _]%andb_true_iff].
        unfold notSeparator in Hc. apply negb_true_iff in Hc. exact Hc. }
      cbn [app dropSeps]. rewrite Hc. reflexivity. }
  rewrite Hd, lastElem_rev, rev_involutive by assumption.
  destruct n; [congruence|reflexivity].
Qed.

Lemma baseBytes_names (root : bool) (names : list (list ascii)) (n seps : list ascii) :
  forallb isName (names ++ [n]) = true ->
  forallb IsPathSeparator seps = true ->
  baseBytes (pathOfBytes root (names ++ [n]) ++ seps) = n.
Proof.
  intros [Hnames Hn]%forallb_snoc Hseps. unfold pathOfBytes.
  destruct names as [|n1 names].
  - cbn [app joinSep]. apply baseBytes_name; auto. destruct root; reflexivity.
  - rewrite joinSep_snoc by discriminate.
    replace ((if root then [Separator] else []) ++ joinSep (n1 :: names) ++ Separator :: n)
      with ((((if root then [Separator] else []) ++ joinSep (n1 :: names)) ++ [Separator]) ++ n)
      by (rewrite <- !app_assoc; reflexivity).
    apply baseBytes_name; auto. rewrite rev_app_distr. reflexivity.
Qed.

(** The name that [createBuildConfig] computes from the project path. *)
Definition buildNameBytes (path : list ascii) : list ascii :=
  baseBytes (dirBytes path).

(** Without a trailing separator, it is the name of the parent
    directory. *)
Lemma buildNameBytes_parent (root : bool) (names : list (list ascii))
  (parent name : list ascii) :
  forallb isName (names ++ [parent; name]) = true ->
  buildNameBytes (pathOfBytes root (names ++ [parent; name])) = parent.
Proof.
  intros Hnames. unfold buildNameBytes.
  change (names ++ [parent; name]) with (names ++ [parent] ++ [name]) in *.
  rewrite app_assoc in *.
  rewrite dirBytes_names; [|exact Hnames|destruct names; discriminate].
  apply forallb_snoc in Hnames as [Hnames _].
  rewrite <- (app_nil_r (pathOfBytes root (names ++ [parent]))).
  apply baseBytes_names; auto.
Qed.

(** With a trailing separator, it is the last name of the path. *)
Lemma buildNameBytes_trailing (root : bool) (names : list (list ascii))
  (name : list ascii) :
  forallb isName (names ++ [name]) = true ->
  buildNameBytes (pathOfBytes root (names ++ [name]) ++ [Separator]) = name.
Proof.
  intros Hnames. unfold buildNameBytes.
  rewrite dirBytes_trailing_separator, cleanBytes_names;
    [|exact Hnames|destruct names; discriminate|reflexivity].
  rewrite <- (app_nil_r (pathOfBytes root (names ++ [name]))).
  apply baseBytes_names; auto.
Qed.

(** *** On strings *)

Abbreviation bytes := list_ascii_of_string.

Definition plainName (s : string) : bool := isName (bytes s).

(** The path made of the names, from the root or not. *)
Definition pathOf (root : bool) (names : list string) : string :=
  (if root then "/" else "") +:+ String.concat "/" names.

Lemma bytes_app (a b : string) : bytes (a +:+ b) = bytes a ++ bytes b.
Proof.
  induction a as [|c a IH]; [reflexivity|]. simpl. f_equal. exact IH.
Qed.

Lemma bytes_concat (names : list string) :
  bytes (String.concat "/" names) = joinSep (map bytes names).
Proof.
  induction names as [|n names IH]; [reflexivity|].
  destruct names as [|n' names]; [reflexivity|].
  change (String.concat "/" (n :: n' :: names))
    with (n +:+ "/" +:+ String.concat "/" (n' :: names)).
  rewrite !bytes_app, IH. reflexivity.
Qed.

Lemma bytes_pathOf (root : bool) (names : list string) :
  bytes (pathOf root names) = pathOfBytes root (map bytes names).
Proof.
  unfold pathOf, pathOfBytes. rewrite bytes_app, bytes_concat.
  destruct root; reflexivity.
Qed.

Lemma bytes_inj (a b : string) : bytes a = bytes b -> a = b.
Proof.
  intros H. rewrite <- (string_of_list_ascii_of_string a), H.
  apply string_of_list_ascii_of_string.
Qed.

Lemma plainName_map (names : list string) :
  forallb plainName names = forallb isName (map bytes names).
Proof.
  induction names as [|n names IH]; [reflexivity|]. cbn. rewrite IH. reflexivity.
Qed.

Lemma Clean_pathOf (root : bool) (names : list string) :
  forallb plainName names = true -> names <> [] ->
  Clean (pathOf root names) = pathOf root names /\
  Clean (pathOf root names +:+ "/") = pathOf root names.
Proof.
  intros Hnames Hne. rewrite plainName_map in Hnames.
  assert (Hne' : map bytes names <> []) by (destruct names; [congruence|discriminate]).
  unfold Clean. split; apply bytes_inj;
    rewrite list_ascii_of_string_of_list_ascii, ?bytes_app, !bytes_pathOf.
  - rewrite <- (app_nil_r (pathOfBytes root (map bytes names))) at 1.
    apply cleanBytes_names; auto.
  - apply (cleanBytes_names root (map bytes names) [Separator]); auto.
Qed.

Lemma Dir_trailing_separator (path : string) :
  Dir (path +:+ "/") = Clean (path +:+ "/").
Proof.
  unfold Dir, Clean. rewrite bytes_app. change (bytes "/") with [Separator].
  rewrite (dirBytes_trailing_separator (bytes path)). reflexivity.
Qed.

Lemma BaseDir_parent (root : bool) (names : list string) (parent name : string) :
  forallb plainName (names ++ [parent; name]) = true ->
  Base (Dir (pathOf root (names ++ [parent; name]))) = parent.
Proof.
  intros Hnames. rewrite plainName_map, map_app in Hnames.
  unfold Base, Dir. apply bytes_inj.
  rewrite !list_ascii_of_string_of_list_ascii, bytes_pathOf, map_app.
  apply (buildNameBytes_parent root (map bytes names) (bytes parent) (bytes name)).
  exact Hnames.
Qed.

Lemma BaseDir_trailing (root : bool) (names : list string) (name : string) :
  forallb plainName (names ++ [name]) = true ->
  Base (Dir (pathOf root (names ++ [name]) +:+ "/")) = name.
Proof.
  intros Hnames. rewrite plainName_map, map_app in Hnames.
  unfold Base, Dir. apply bytes_inj.
  rewrite !list_ascii_of_string_of_list_ascii, bytes_app, bytes_pathOf, map_app.
  apply (buildNameBytes_trailing root (map bytes names) (bytes name)).
  exact Hnames.
Qed.

Lemma joinSep_app (names more : list (list ascii)) :
  names <> [] -> more <> [] ->
  joinSep (names ++ more) = joinSep names ++ Separator :: joinSep more.
Proof.
  intros Hne Hmore. induction names as [|n names IH]; [congruence|].
  destruct names as [|n' names].
  - destruct more; [congruence|reflexivity].
  - change (joinSep ((n :: n' :: names) ++ more))
      with (n ++ Separator :: joinSep ((n' :: names) ++ more)).
    rewrite IH by discriminate.
    change (joinSep (n :: n' :: names)) with (n ++ Separator :: joinSep (n' :: names)).
    rewrite <- app_assoc. reflexivity.
Qed.

Lemma joinBytes_cons (e : list ascii) (es : list (list ascii)) :
  e <> [] -> joinBytes (e :: es) = cleanBytes (joinSep (e :: es)).
Proof. destruct e; [congruence|reflexivity]. Qed.

(** Joining plain names to a path of plain names appends them. *)
Lemma Join_pathOf (root : bool) (names more : list string) :
  forallb plainName (names ++ more) = true ->
  names <> [] -> more <> [] ->
  Join (pathOf root names :: more) = pathOf root (names ++ more).
Proof.
  intros Hnames Hne Hmore. rewrite plainName_map in Hnames.
  assert (Hne' : map bytes names <> []) by (destruct names; [congruence|discriminate]).
  assert (Hmore' : map bytes more <> []) by (destruct more; [congruence|discriminate]).
  unfold Join. apply bytes_inj.
  rewrite list_ascii_of_string_of_list_ascii, bytes_pathOf.
  cbn [map]. rewrite bytes_pathOf.
  assert (Hj : joinSep (pathOfBytes root (map bytes names) :: map bytes more)
               = pathOfBytes root (map bytes (names ++ more))).
  { unfold pathOfBytes. rewrite map_app, joinSep_app by assumption.
    destruct (map bytes more) as [|m ms]; [congruence|].
    cbn [joinSep]. rewrite <- app_assoc. reflexivity. }
  assert (Hcl : cleanBytes (pathOfBytes root (map bytes (names ++ more)))
                = pathOfBytes root (map bytes (names ++ more))).
  { rewrite <- (app_nil_r (pathOfBytes root (map bytes (names ++ more)))) at 1.
    apply cleanBytes_names; auto. rewrite map_app.
    destruct (map bytes names); [congruence|discriminate]. }
  rewrite joinBytes_cons, Hj; [exact Hcl|].
  unfold pathOfBytes. intros Hp.
  destruct (joinSep_nonempty (map bytes names)) as (c & rest & Hc & _).
  - rewrite map_app, forallb_app in Hnames.
    apply andb_true_iff in Hnames as [H _]. exact H.
  - exact Hne'.
  - rewrite Hc in Hp. destruct root; discriminate.
Qed.

End PathFacts.

(** ** Properties *)

Section Properties.

Context {W E : Type} (env : Collaborators W E).

Abbreviation TechMap := (gmap Technology bool).

(** The outcome of a detection pass started in world [w]. *)
Definition detectionPass (path : string) (recursive : bool) (w : W)
  : Result E TechMap * W :=
  DetectTechnologies env path false recursive w.

Definition detectEvent (path : string) (recursive : bool) (r : Result E TechMap)
  : Event E :=
  Build_Event (CallDetectTechnologies path false recursive)
    match r with Ok _ => None | Err e => Some e end.

Lemma size_zero_empty (m : TechMap) : (size m =? 0)%nat = true <-> m = ∅.
Proof.
  rewrite Nat.eqb_eq. apply map_size_empty_iff.
Qed.

(** What a run of [detectTechnologies] does, by the outcome of the
    passes. *)
Lemma detectTechnologies_run (pic : ProjectInitCommand) (w : W) :
  let path := projectPath pic in
  let first := detectionPass path false w in
  let second := detectionPass path true (snd first) in
  detectTechnologies env pic w =
    match fst first with
    | Err e => (Err e, snd first, [detectEvent path false (fst first)])
    | Ok m =>
        if (size m =? 0)%nat
        then (fst second, snd second,
              [detectEvent path false (fst first); detectEvent path true (fst second)])
        else (Ok m, snd first, [detectEvent path false (fst first)])
    end.
Proof.
  intros path first second.
  unfold detectTechnologies, detect, bind, callRes, second.
  unfold first, detectionPass. fold path.
  destruct (DetectTechnologies env path false false w) as [[m1|e1] w1];
    cbn [fst snd]; [|reflexivity].
  destruct (size m1 =? 0)%nat; [|reflexivity].
  destruct (DetectTechnologies env path false true w1) as [[m2|e2] w2];
    reflexivity.
Qed.

(** C1.  The first detection pass runs on the project path with
    recursion disabled.  The recursive pass runs exactly when the first
    pass returned an empty technology set, and then it is the only
    other call and its result is the result of the detection step;
    otherwise the first pass is the only call and its result is the
    result of the detection step. *)
Theorem detectTechnologies_two_passes (pic : ProjectInitCommand) (w : W) :
  let path := projectPath pic in
  let first := detectionPass path false w in
  let second := detectionPass path true (snd first) in
  let out := detectTechnologies env pic w in
  (exists rest, trace out = detectEvent path false (fst first) :: rest) /\
  (In (CallDetectTechnologies path false true) (map call (trace out))
   <-> fst first = Ok ∅) /\
  (fst first = Ok ∅ ->
     result out = fst second /\ world out = snd second /\
     trace out = [detectEvent path false (fst first);
                  detectEvent path true (fst second)]) /\
  (fst first <> Ok ∅ ->
     result out = fst first /\ world out = snd first /\
     trace out = [detectEvent path false (fst first)]).
Proof.
  intros path first second out. subst out.
  rewrite detectTechnologies_run. fold path first second.
  destruct (fst first) as [m1|e1] eqn:H1.
  - destruct (size m1 =? 0)%nat eqn:Hsz.
    + apply size_zero_empty in Hsz. subst m1. cbn.
      split; [eauto|]. split; [tauto|]. split; [auto|congruence].
    + assert (Hne : m1 <> ∅).
      { intros ->. rewrite map_size_empty in Hsz. discriminate. }
      cbn. split; [eauto|]. split.
      * split; [intros [H|[]]; discriminate | congruence].
      * split; [congruence | auto].
  - cbn. split; [eauto|]. split.
    + split; [intros [H|[]]; discriminate | congruence].
    + split; [congruence | auto].
Qed.

(** *** The deployment config of a technology *)

Definition repository (id repo snapshotRepo releaseRepo : string) : Repository :=
  {| Repo := repo; ServerId := id;
     SnapshotRepo := snapshotRepo; ReleaseRepo := releaseRepo |}.

(** [wrote out filename data]: the run [out] called [WriteFile] on
    [filename] with the bytes [data]. *)
Definition wrote {A : Type} (out : A * W * list (Event E)) (filename data : string)
  : Prop :=
  exists perm err, In (Build_Event (CallWriteFile filename data perm) err) (trace out).

Definition mkdirEvent (path : string) (err : option E) : Event E :=
  Build_Event (CallCreateDirIfNotExist (jfrogProjectDir path)) err.

(** What a run of [createProjectBuildConfigs] does, by the outcome of
    the calls it makes. *)
Lemma createProjectBuildConfigs_run (tech : Technology) (path id : string) (w : W) :
  let mk := CreateDirIfNotExist env (jfrogProjectDir path) w in
  let file := projectConfigFilePath tech path in
  createProjectBuildConfigs env tech path id w =
    match fst mk with
    | Some e => (Some e, snd mk, [mkdirEvent path (Some e)])
    | None =>
        match MarshalConfigFile env (projectConfigFile env tech id) with
        | Err e => (Some e, snd mk, [mkdirEvent path None])
        | Ok data =>
            let wr := WriteFile env file data 420 (snd mk) in
            (fst wr, snd wr,
             [mkdirEvent path None; Build_Event (CallWriteFile file data 420) (fst wr)])
        end
    end.
Proof.
  intros mk file. unfold createProjectBuildConfigs, createDirIfNotExist, bind, callErr.
  subst mk. destruct (CreateDirIfNotExist env (jfrogProjectDir path) w) as [[e|] w1];
    cbn [fst snd]; [reflexivity|].
  destruct (MarshalConfigFile env (projectConfigFile env tech id)) as [data|e];
    [|reflexivity].
  unfold writeFile, callErr, ret. subst file.
  destruct (WriteFile env (projectConfigFilePath tech path) data 420 w1) as [err w2].
  reflexivity.
Qed.

(** Whatever [createProjectBuildConfigs] writes is the marshalled
    record of the technology, at the path of the technology. *)
Lemma createProjectBuildConfigs_wrote (tech : Technology) (path id : string) (w : W)
  (filename data : string) :
  wrote (createProjectBuildConfigs env tech path id w) filename data ->
  filename = projectConfigFilePath tech path /\
  MarshalConfigFile env (projectConfigFile env tech id) = Ok data.
Proof.
  intros (perm & err & Hin). rewrite createProjectBuildConfigs_run in Hin.
  destruct (fst (CreateDirIfNotExist env (jfrogProjectDir path) w)).
  - destruct Hin as [H|[]]. discriminate.
  - destruct (MarshalConfigFile env (projectConfigFile env tech id)).
    + destruct Hin as [H|[H|[]]]; [discriminate|].
      inversion H. auto.
    + destruct Hin as [H|[]]. discriminate.
Qed.

(** When the directory can be made and the record marshalled, the
    file is written. *)
Lemma createProjectBuildConfigs_writes (tech : Technology) (path id : string) (w : W)
  (data : string) :
  fst (CreateDirIfNotExist env (jfrogProjectDir path) w) = None ->
  MarshalConfigFile env (projectConfigFile env tech id) = Ok data ->
  wrote (createProjectBuildConfigs env tech path id w)
    (projectConfigFilePath tech path) data.
Proof.
  intros Hmk Hm. rewrite createProjectBuildConfigs_run, Hmk, Hm.
  eexists _, _. right. left. reflexivity.
Qed.

Definition supported : list Technology :=
  [coreutils.Maven; coreutils.Gradle; coreutils.Npm; coreutils.Go;
   coreutils.Pip; coreutils.Pipenv].

(** The release and snapshot repositories, or the single repository,
    that the command configures for a technology. *)
Definition hasReleaseSnapshot (r : Repository) (id name : string) : Prop :=
  r = repository id "" name name.

Definition hasSingleRepo (r : Repository) (id name : string) : Prop :=
  r = repository id name "" "".

(** C2.  The record written for Maven has, on the resolver and on the
    deployer, the release and the snapshot repository equal to the
    Maven virtual default name and no single repository.  The record
    written for Gradle, Npm, Go, Pip or Pipenv has the single
    repository equal to the virtual default name of the technology
    (the Pypi one for Pip and Pipenv) and no release or snapshot
    repository. *)
Theorem deployment_config_repositories (tech : Technology) (path id : string) (w : W)
  (filename data : string) :
  wrote (createProjectBuildConfigs env tech path id w) filename data ->
  exists c : ConfigFile,
    MarshalConfigFile env c = Ok data /\
    (tech = coreutils.Maven ->
     hasReleaseSnapshot (Resolver c) id (MavenVirtualDefaultName env) /\
     hasReleaseSnapshot (Deployer c) id (MavenVirtualDefaultName env)) /\
    (tech = coreutils.Gradle ->
     hasSingleRepo (Resolver c) id (GradleVirtualDefaultName env) /\
     hasSingleRepo (Deployer c) id (GradleVirtualDefaultName env)) /\
    (tech = coreutils.Npm ->
     hasSingleRepo (Resolver c) id (NpmVirtualDefaultName env) /\
     hasSingleRepo (Deployer c) id (NpmVirtualDefaultName env)) /\
    (tech = coreutils.Go ->
     hasSingleRepo (Resolver c) id (GoVirtualDefaultName env) /\
     hasSingleRepo (Deployer c) id (GoVirtualDefaultName env)) /\
    (tech = coreutils.Pip \/ tech = coreutils.Pipenv ->
     hasSingleRepo (Resolver c) id (PypiVirtualDefaultName env) /\
     hasSingleRepo (Deployer c) id (PypiVirtualDefaultName env)).
Proof.
  intros Hw. apply createProjectBuildConfigs_wrote in Hw as [_ Hm].
  exists (projectConfigFile env tech id). split; [exact Hm|].
  repeat (split; [intros ->; split; reflexivity|]).
  intros [-> | ->]; split; reflexivity.
Qed.

Lemma projectConfigFile_resolver_deployer (tech : Technology) (id : string) :
  Resolver (projectConfigFile env tech id) = Deployer (projectConfigFile env tech id) /\
  ServerId (Resolver (projectConfigFile env tech id)) = id.
Proof.
  unfold projectConfigFile.
  repeat match goal with
         | |- context [String.eqb ?a ?b] => destruct (String.eqb a b)
         end; split; reflexivity.
Qed.



(** The lower-case name of a supported technology. *)
Definition lowerName (tech : Technology) : string := gostrings.ToLower tech.


(** [<project>/.jfrog/projects/<name>], as the path functions build it. *)
Definition inProjectsDir (path name : string) : string :=
  filepath.Join [filepath.Join [path; ".jfrog"; "projects"]; name].




(** The record of a technology that the [switch] does not know: the
    server identifier and no repository name. *)
Definition bareConfigFile (tech : Technology) (id : string) : ConfigFile :=
  {| Version := BuildConfVersion env; ConfigType := lowerName tech;
     Resolver := repository id "" "" ""; Deployer := repository id "" "" "" |}.

Lemma projectConfigFile_unsupported (tech : Technology) (id : string) :
  ~ In tech supported -> projectConfigFile env tech id = bareConfigFile tech id.
Proof.
  intros Hno. unfold projectConfigFile.
  repeat match goal with
         | |- context [String.eqb tech ?b] =>
             destruct (String.eqb_spec tech b) as [->|_];
             [exfalso; apply Hno; unfold supported; simpl; tauto|]
         end.
  reflexivity.
Qed.

(** C10.  For a technology outside the six supported ones, the
    deployment config is still written, to the file named by the
    lower-case technology: its resolver and deployer carry the server
    identifier and no repository name.  The technology itself raises
    no error: the function fails only with the error of the directory
    creation, of the marshalling or of the write. *)
Theorem unsupported_technology_config (tech : Technology) (path id : string) (w : W) :
  ~ In tech supported ->
  let out := createProjectBuildConfigs env tech path id w in
  let file := inProjectsDir path (lowerName tech +:+ ".yaml") in
  let mk := CreateDirIfNotExist env (filepath.Join [path; ".jfrog"; "projects"]) w in
  (forall filename data,
      wrote out filename data ->
      filename = file /\
      exists c : ConfigFile,
        MarshalConfigFile env c = Ok data /\
        ConfigType c = lowerName tech /\
        Resolver c = repository id "" "" "" /\
        Deployer c = repository id "" "" "") /\
  (forall data,
      fst mk = None ->
      MarshalConfigFile env (bareConfigFile tech id) = Ok data ->
      wrote out file data /\
      result out = fst (WriteFile env file data 420 (snd mk))) /\
  (forall e,
      result out = Some e ->
      fst mk = Some e \/
      MarshalConfigFile env (bareConfigFile tech id) = Err e \/
      exists data,
        MarshalConfigFile env (bareConfigFile tech id) = Ok data /\
        fst (WriteFile env file data 420 (snd mk)) = Some e).
Proof.
  intros Hno out file mk.
  pose proof (projectConfigFile_unsupported tech id Hno) as Hrec.
  split; [|split].
  - intros filename data Hw.
    apply createProjectBuildConfigs_wrote in Hw as [-> Hm].
    split; [reflexivity|].
    exists (bareConfigFile tech id). rewrite <- Hrec at 1. auto.
  - intros data Hmk Hm. rewrite <- Hrec in Hm. split.
    + apply createProjectBuildConfigs_writes; assumption.
    + unfold out. rewrite createProjectBuildConfigs_run.
      fold (jfrogProjectDir path) in mk. fold mk. rewrite Hmk, Hm. reflexivity.
  - intros e. unfold out. rewrite createProjectBuildConfigs_run.
    fold (jfrogProjectDir path) in mk. fold mk. rewrite Hrec.
    destruct (fst mk) as [e'|].
    + cbn. intros [= ->]. auto.
    + destruct (MarshalConfigFile env (bareConfigFile tech id)) as [data|e'].
      * cbn. intros Hwr. right. right. exists data. auto.
      * cbn. intros [= ->]. auto.
Qed.

(** *** The steps of [Run] *)

Lemma visitOrder_Permutation {K : Type} (n : nat) (keys : list K) :
  visitOrder n keys ≡ₚ keys.
Proof.
  unfold visitOrder. destruct (permutations keys !! n) as [order|] eqn:Hn; [|done].
  symmetry. apply permutations_Permutation. eapply list_elem_of_lookup_2, Hn.
Qed.

(** Steps 1 and 2: the server identifier is looked up when none is
    set, and the technologies are detected. *)
Definition detectionSteps (pic : ProjectInitCommand)
  : M W E (ProjectInitCommand * Result E TechMap) :=
  if String.eqb (serverId pic) "" then
    let* r := getSpecificConfig env "" true false in
    match r with
    | Err e => ret (pic, Err e)
    | Ok defaultServer =>
        let pic := SetServerId pic (config.ServerId defaultServer) in
        let* r := detectTechnologies env pic in
        ret (pic, r)
    end
  else
    let* r := detectTechnologies env pic in
    ret (pic, r).

(** Step 5: the summary is printed between two empty lines. *)
Definition summaryStep (technologiesMap : TechMap) : M W E (option E) :=
  let* _ := println env in
  let* msg := createSummarizeMessage env technologiesMap in
  let* err := printTable env "" "" msg in
  let* _ := println env in
  ret err.

Lemma bind_eq {A B : Type} (m : M W E A) (f : A -> M W E B) (w : W) :
  bind m f w =
    (result (f (result (m w)) (world (m w))),
     world (f (result (m w)) (world (m w))),
     trace (m w) ++ trace (f (result (m w)) (world (m w)))).
Proof.
  unfold bind. destruct (m w) as [[a w1] t1]. cbn.
  destruct (f a w1) as [[b w2] t2]. reflexivity.
Qed.

Lemma range_trace (m : TechMap) (w : W) : trace (range env m w) = [].
Proof.
  unfold range, silent. destruct (rangeSeed env w). reflexivity.
Qed.

Lemma range_Permutation (m : TechMap) (w : W) :
  result (range env m w) ≡ₚ (map_to_list m).*1.
Proof.
  unfold range, silent. destruct (rangeSeed env w).
  apply visitOrder_Permutation.
Qed.

Ltac run_bind := rewrite bind_eq; cbv beta zeta.
Ltac run_proj := cbn [ret result world trace fst snd].

(** [Run] from the detection on, step by step. *)
Lemma runWithServer_steps (pic : ProjectInitCommand) (w : W) :
  let det := detectTechnologies env pic w in
  runWithServer env pic w =
    match result det with
    | Err e => (Some e, world det, trace det)
    | Ok m =>
        let rg := range env m (world det) in
        let lp := initTechnologies env (result rg) pic (world rg) in
        match result lp with
        | Some e => (Some e, world lp, trace det ++ trace lp)
        | None =>
            let bc := createBuildConfig env pic (world lp) in
            match result bc with
            | Some e => (Some e, world bc, trace det ++ trace lp ++ trace bc)
            | None =>
                let pr := summaryStep m (world bc) in
                (result pr, world pr,
                 trace det ++ trace lp ++ trace bc ++ trace pr)
            end
        end
    end.
Proof.
  intros det. unfold runWithServer. run_bind. fold det.
  destruct (result det) as [m|e]; [|unfold ret; run_proj; rewrite app_nil_r; reflexivity].
  run_bind. rewrite range_trace. cbn [app]. run_bind.
  destruct (result (initTechnologies env _ pic _)) as [e|];
    [unfold ret; run_proj; rewrite app_nil_r; reflexivity|].
  run_bind.
  destruct (result (createBuildConfig env pic _)) as [e|];
    [unfold ret; run_proj; rewrite app_nil_r; reflexivity|].
  fold (summaryStep m). reflexivity.
Qed.

(** [Run], step by step. *)
Lemma Run_steps (pic : ProjectInitCommand) (w : W) :
  let det := detectionSteps pic w in
  let pic' := fst (result det) in
  Run env pic w =
    match snd (result det) with
    | Err e => (pic', Some e, world det, trace det)
    | Ok m =>
        let rg := range env m (world det) in
        let lp := initTechnologies env (result rg) pic' (world rg) in
        match result lp with
        | Some e => (pic', Some e, world lp, trace det ++ trace lp)
        | None =>
            let bc := createBuildConfig env pic' (world lp) in
            match result bc with
            | Some e => (pic', Some e, world bc, trace det ++ trace lp ++ trace bc)
            | None =>
                let pr := summaryStep m (world bc) in
                (pic', result pr, world pr,
                 trace det ++ trace lp ++ trace bc ++ trace pr)
            end
        end
    end.
Proof.
  assert (Hfrom : forall pic0 w0,
    let det := (let* r := detectTechnologies env pic0 in ret (pic0, r)) w0 in
    (let* err := runWithServer env pic0 in ret (pic0, err)) w0 =
      match snd (result det) with
      | Err e => (pic0, Some e, world det, trace det)
      | Ok m =>
          let rg := range env m (world det) in
          let lp := initTechnologies env (result rg) pic0 (world rg) in
          match result lp with
          | Some e => (pic0, Some e, world lp, trace det ++ trace lp)
          | None =>
              let bc := createBuildConfig env pic0 (world lp) in
              match result bc with
              | Some e => (pic0, Some e, world bc, trace det ++ trace lp ++ trace bc)
              | None =>
                  let pr := summaryStep m (world bc) in
                  (pic0, result pr, world pr,
                   trace det ++ trace lp ++ trace bc ++ trace pr)
              end
          end
      end).
  { intros pic0 w0 det. subst det. rewrite !bind_eq. cbv beta zeta.
    unfold ret. run_proj. rewrite !app_nil_r, runWithServer_steps. cbv zeta.
    destruct (result (detectTechnologies env pic0 w0)); [|reflexivity].
    destruct (result (initTechnologies env _ _ _)); [reflexivity|].
    destruct (result (createBuildConfig env _ _)); reflexivity. }
  intros det pic'. subst pic' det. unfold Run, detectionSteps.
  destruct (String.eqb (serverId pic) "").
  2: { rewrite Hfrom. cbv zeta.
       set (d1 := (let* r := detectTechnologies env pic in ret (pic, r)) w).
       assert (Hfst : fst (result d1) = pic).
       { subst d1. rewrite bind_eq. reflexivity. }
       rewrite Hfst. reflexivity. }
  rewrite (bind_eq (getSpecificConfig env "" true false)).
  rewrite (bind_eq (getSpecificConfig env "" true false)). cbv beta zeta.
  destruct (result (getSpecificConfig env "" true false w)) as [d|e];
    [|unfold ret; run_proj; rewrite app_nil_r; reflexivity].
  rewrite Hfrom. cbv zeta.
  set (pic1 := SetServerId pic (config.ServerId d)).
  set (w1 := world (getSpecificConfig env "" true false w)).
  set (t1 := trace (getSpecificConfig env "" true false w)).
  set (d1 := (let* r := detectTechnologies env pic1 in ret (pic1, r)) w1).
  assert (Hfst : fst (result d1) = pic1).
  { subst d1. rewrite bind_eq. reflexivity. }
  run_proj. rewrite ?Hfst.
  destruct (snd (result d1)); [|reflexivity].
  destruct (result (initTechnologies env _ _ _)); run_proj;
    [rewrite app_assoc; reflexivity|].
  destruct (result (createBuildConfig env _ _)); run_proj;
    rewrite !app_assoc; reflexivity.
Qed.

(** *** Traces that stop at the first error *)

Definition succeeded (ev : Event E) : Prop := failure ev = None.

(** [Halting t r]: no call of [t] failed, or only the last one did and
    its error is [r]. *)
Inductive Halting : list (Event E) -> option E -> Prop :=
| Halting_ok (t : list (Event E)) (r : option E) :
    Forall succeeded t -> Halting t r
| Halting_failed (pre : list (Event E)) (ev : Event E) (e : E) :
    Forall succeeded pre -> failure ev = Some e ->
    Halting (pre ++ [ev]) (Some e).

(** [StopsOnError t r]: [Halting], and a run without an error made no
    failing call. *)
Definition StopsOnError (t : list (Event E)) (r : option E) : Prop :=
  Halting t r /\ (r = None -> Forall succeeded t).

Lemma Halting_app (t1 t2 : list (Event E)) (r : option E) :
  Forall succeeded t1 -> Halting t2 r -> Halting (t1 ++ t2) r.
Proof.
  intros H1 H2. destruct H2 as [t r H2|pre ev e Hpre Hev].
  - apply Halting_ok. apply Forall_app. auto.
  - rewrite app_assoc. apply Halting_failed; [|exact Hev].
    apply Forall_app. auto.
Qed.

Lemma succeeded_no_failure (t pre post : list (Event E)) (ev : Event E) (e : E) :
  Forall succeeded t -> t = pre ++ ev :: post -> failure ev = Some e -> False.
Proof.
  intros Hall -> Hev. apply Forall_app in Hall as [_ Hall].
  apply Forall_cons_1 in Hall as [Hok _]. unfold succeeded in Hok. congruence.
Qed.

(** A failing call of a halting trace is its last call, and its error
    is the result. *)
Lemma Halting_last (t pre post : list (Event E)) (r : option E) (ev : Event E) (e : E) :
  Halting t r -> t = pre ++ ev :: post -> failure ev = Some e ->
  post = [] /\ r = Some e.
Proof.
  intros H Heq Hev. destruct H as [t r Hall|pre' ev' e' Hpre Hev'].
  - exfalso. eapply succeeded_no_failure; eauto.
  - destruct post as [|x post].
    + apply app_inj_tail in Heq as [_ <-]. split; [reflexivity|congruence].
    + exfalso. change (ev :: x :: post) with ([ev] ++ x :: post) in Heq.
      rewrite app_assoc in Heq.
      destruct (exists_last (l := x :: post)) as (post' & y & Hy); [discriminate|].
      rewrite Hy, app_assoc in Heq. apply app_inj_tail in Heq as [Heq _].
      subst pre'. apply Forall_app in Hpre as [Hpre _].
      apply Forall_app in Hpre as [_ Hpre].
      apply Forall_cons_1 in Hpre as [Hok _]. unfold succeeded in Hok. congruence.
Qed.

Lemma StopsOnError_callErr (c : Call) (h : W -> option E * W) (w : W) :
  StopsOnError (trace (callErr c h w)) (result (callErr c h w)).
Proof.
  unfold callErr. destruct (h w) as [[e|] w']; cbn.
  - split; [|discriminate]. apply (Halting_failed [] _ e); [constructor|reflexivity].
  - split; [apply Halting_ok|intros _]; repeat constructor.
Qed.

(** [err := m; if err != nil { return err }; k] stops on the first
    error when [m] and [k] do. *)
Lemma StopsOnError_try (m k : M W E (option E)) (w : W) :
  StopsOnError (trace (m w)) (result (m w)) ->
  (forall w', StopsOnError (trace (k w')) (result (k w'))) ->
  let out := (try! m in k) w in
  StopsOnError (trace out) (result out).
Proof.
  intros [Hm Hm0] Hk out. subst out. rewrite bind_eq.
  destruct (result (m w)) as [e|].
  - unfold ret. run_proj. rewrite app_nil_r. split; [exact Hm|discriminate].
  - run_proj. destruct (Hk (world (m w))) as [Hk1 Hk0].
    split; [apply Halting_app; auto|].
    intros Hr. apply Forall_app. auto.
Qed.

Lemma createDefaultReposIfNeeded_stops (tech : Technology) (id : string) (w : W) :
  let out := createDefaultReposIfNeeded env tech id w in
  StopsOnError (trace out) (result out).
Proof.
  unfold createDefaultReposIfNeeded.
  apply StopsOnError_try; [apply StopsOnError_callErr|]. intros w1.
  apply StopsOnError_try; [apply StopsOnError_callErr|]. intros w2.
  apply StopsOnError_callErr.
Qed.

Lemma createProjectBuildConfigs_stops (tech : Technology) (path id : string) (w : W) :
  let out := createProjectBuildConfigs env tech path id w in
  StopsOnError (trace out) (result out).
Proof.
  intros out. subst out. rewrite createProjectBuildConfigs_run.
  destruct (CreateDirIfNotExist env (jfrogProjectDir path) w) as [[e|] w1];
    cbn [fst snd].
  - run_proj. split; [|discriminate].
    apply (Halting_failed [] _ e); [constructor|reflexivity].
  - destruct (MarshalConfigFile env (projectConfigFile env tech id)) as [data|e].
    + destruct (WriteFile env _ data 420 w1) as [[e|] w2]; run_proj.
      * split; [|discriminate].
        apply (Halting_failed [_] _ e); [repeat constructor|reflexivity].
      * split; [apply Halting_ok|intros _]; repeat constructor.
    + run_proj. split; [|discriminate]. apply Halting_ok. repeat constructor.
Qed.

Lemma initTechnology_stops (tech : Technology) (pic : ProjectInitCommand) (w : W) :
  let out := initTechnology env tech pic w in
  StopsOnError (trace out) (result out).
Proof.
  unfold initTechnology.
  apply StopsOnError_try; [apply createDefaultReposIfNeeded_stops|]. intros w1.
  apply createProjectBuildConfigs_stops.
Qed.

Lemma initTechnologies_stops (techs : list Technology) (pic : ProjectInitCommand) (w : W) :
  let out := initTechnologies env techs pic w in
  StopsOnError (trace out) (result out).
Proof.
  revert w. induction techs as [|tech techs IH]; intros w.
  - cbn. split; [apply Halting_ok|intros _]; constructor.
  - cbn [initTechnologies].
    apply StopsOnError_try; [apply initTechnology_stops|]. intros w1. apply IH.
Qed.

(** *** The calls planned for the detected technologies *)

(** The calls of one turn of the loop: the three provisioning calls,
    then the directory and the file of the deployment config.  (There
    is no write when the record cannot be marshalled.) *)
Definition techCalls (pic : ProjectInitCommand) (tech : Technology) : list Call :=
  [CallCreateDefaultLocalRepo tech (serverId pic);
   CallCreateDefaultRemoteRepo tech (serverId pic);
   CallCreateDefaultVirtualRepo tech (serverId pic);
   CallCreateDirIfNotExist (jfrogProjectDir (projectPath pic))]
  ++ match MarshalConfigFile env (projectConfigFile env tech (serverId pic)) with
     | Ok data => [CallWriteFile (projectConfigFilePath tech (projectPath pic)) data 420]
     | Err _ => []
     end.

Definition plan (pic : ProjectInitCommand) (techs : list Technology) : list Call :=
  flat_map (techCalls pic) techs.

(** [FollowsPlan p t r]: the calls of [t] are the first calls of the
    plan [p], and all of them when there is no error. *)
Definition FollowsPlan (p : list Call) (t : list (Event E)) (r : option E) : Prop :=
  exists later, p = map call t ++ later /\ (r = None -> later = []).

Lemma FollowsPlan_try (p1 p2 : list Call) (m k : M W E (option E)) (w : W) :
  FollowsPlan p1 (trace (m w)) (result (m w)) ->
  (forall w', FollowsPlan p2 (trace (k w')) (result (k w'))) ->
  let out := (try! m in k) w in
  FollowsPlan (p1 ++ p2) (trace out) (result out).
Proof.
  intros (later & Hp & Hnone) Hk out. subst out. rewrite bind_eq.
  destruct (result (m w)) as [e|].
  - unfold ret. run_proj. rewrite app_nil_r. exists (later ++ p2).
    split; [rewrite Hp, app_assoc; reflexivity|discriminate].
  - run_proj. destruct (Hk (world (m w))) as (later2 & Hp2 & Hnone2).
    exists later2. rewrite Hnone in Hp by reflexivity. rewrite app_nil_r in Hp.
    split; [|exact Hnone2]. rewrite map_app, Hp, Hp2, app_assoc. reflexivity.
Qed.

Lemma FollowsPlan_callErr (c : Call) (h : W -> option E * W) (w : W) :
  FollowsPlan [c] (trace (callErr c h w)) (result (callErr c h w)).
Proof.
  unfold callErr. destruct (h w) as [err w']. exists []. split; reflexivity.
Qed.

Lemma initTechnology_plan (tech : Technology) (pic : ProjectInitCommand) (w : W) :
  let out := initTechnology env tech pic w in
  FollowsPlan (techCalls pic tech) (trace out) (result out).
Proof.
  unfold initTechnology, techCalls.
  change [CallCreateDefaultLocalRepo tech (serverId pic);
          CallCreateDefaultRemoteRepo tech (serverId pic);
          CallCreateDefaultVirtualRepo tech (serverId pic);
          CallCreateDirIfNotExist (jfrogProjectDir (projectPath pic))]
    with (([CallCreateDefaultLocalRepo tech (serverId pic)]
           ++ [CallCreateDefaultRemoteRepo tech (serverId pic)]
           ++ [CallCreateDefaultVirtualRepo tech (serverId pic)])
          ++ [CallCreateDirIfNotExist (jfrogProjectDir (projectPath pic))]).
  rewrite <- app_assoc.
  apply FollowsPlan_try.
  - unfold createDefaultReposIfNeeded.
    apply FollowsPlan_try; [apply FollowsPlan_callErr|]. intros w1.
    apply FollowsPlan_try; [apply FollowsPlan_callErr|]. intros w2.
    apply FollowsPlan_callErr.
  - intros w1. rewrite createProjectBuildConfigs_run.
    destruct (CreateDirIfNotExist env _ w1) as [[e|] w2]; cbn [fst snd].
    + run_proj. eexists. split; [reflexivity|discriminate].
    + destruct (MarshalConfigFile env _) as [data|e].
      * destruct (WriteFile env _ data 420 w2) as [err w3]. run_proj.
        exists []. split; reflexivity.
      * run_proj. exists []. split; [reflexivity|discriminate].
Qed.

Lemma initTechnologies_plan (techs : list Technology) (pic : ProjectInitCommand) (w : W) :
  let out := initTechnologies env techs pic w in
  FollowsPlan (plan pic techs) (trace out) (result out).
Proof.
  revert w. induction techs as [|tech techs IH]; intros w.
  - exists []. split; reflexivity.
  - cbn [initTechnologies plan flat_map].
    apply FollowsPlan_try; [apply initTechnology_plan|]. intros w1. apply IH.
Qed.

(** *** The build config and the summary *)

Definition buildConfigFilePath (path : string) : string :=
  filepath.Join [jfrogProjectDir path; buildFileName].

Lemma createBuildConfig_run (pic : ProjectInitCommand) (w : W) :
  let path := projectPath pic in
  let mk := CreateDirIfNotExist env (jfrogProjectDir path) w in
  let file := buildConfigFilePath path in
  createBuildConfig env pic w =
    match fst mk with
    | Some e => (Some e, snd mk, [mkdirEvent path (Some e)])
    | None =>
        match MarshalBuildConfigFile env (buildConfigFile pic) with
        | Err e => (Some e, snd mk, [mkdirEvent path None])
        | Ok data =>
            let wr := WriteFile env file data 420 (snd mk) in
            (fst wr, snd wr,
             [mkdirEvent path None; Build_Event (CallWriteFile file data 420) (fst wr)])
        end
    end.
Proof.
  intros path mk file. unfold createBuildConfig, createDirIfNotExist, bind, callErr.
  subst mk. fold path.
  destruct (CreateDirIfNotExist env (jfrogProjectDir path) w) as [[e|] w1];
    cbn [fst snd]; [reflexivity|].
  destruct (MarshalBuildConfigFile env (buildConfigFile pic)) as [data|e];
    [|reflexivity].
  unfold writeFile, callErr, ret. subst file. unfold buildConfigFilePath.
  destruct (WriteFile env _ data 420 w1) as [err w2].
  reflexivity.
Qed.

Lemma createBuildConfig_stops (pic : ProjectInitCommand) (w : W) :
  let out := createBuildConfig env pic w in
  StopsOnError (trace out) (result out).
Proof.
  intros out. subst out. rewrite createBuildConfig_run.
  destruct (CreateDirIfNotExist env _ w) as [[e|] w1]; cbn [fst snd].
  - run_proj. split; [|discriminate].
    apply (Halting_failed [] _ e); [constructor|reflexivity].
  - destruct (MarshalBuildConfigFile env (buildConfigFile pic)) as [data|e].
    + destruct (WriteFile env _ data 420 w1) as [[e|] w2]; run_proj.
      * split; [|discriminate].
        apply (Halting_failed [_] _ e); [repeat constructor|reflexivity].
      * split; [apply Halting_ok|intros _]; repeat constructor.
    + run_proj. split; [|discriminate]. apply Halting_ok. repeat constructor.
Qed.

(** Whatever [createBuildConfig] writes is the marshalled build config,
    in the file build.yaml. *)
Lemma createBuildConfig_wrote (pic : ProjectInitCommand) (w : W) (filename data : string) :
  wrote (createBuildConfig env pic w) filename data ->
  filename = buildConfigFilePath (projectPath pic) /\
  MarshalBuildConfigFile env (buildConfigFile pic) = Ok data.
Proof.
  intros (perm & err & Hin). rewrite createBuildConfig_run in Hin.
  destruct (fst (CreateDirIfNotExist env _ w)).
  - destruct Hin as [H|[]]. discriminate.
  - destruct (MarshalBuildConfigFile env (buildConfigFile pic)).
    + destruct Hin as [H|[H|[]]]; [discriminate|].
      inversion H. auto.
    + destruct Hin as [H|[]]. discriminate.
Qed.

Definition printlnEvent : Event E := Build_Event CallPrintln None.

(** The summary step prints an empty line, the table and an empty
    line, and returns what printing the table returned. *)
Lemma summaryStep_run (m : TechMap) (w : W) :
  exists msg err,
    trace (summaryStep m w) =
      [printlnEvent; Build_Event (CallPrintTable "" "" msg) err; printlnEvent] /\
    result (summaryStep m w) = err.
Proof.
  unfold summaryStep. rewrite bind_eq. cbv beta zeta.
  rewrite bind_eq. cbv beta zeta.
  set (w1 := world (println env w)).
  assert (Hmsg : trace (createSummarizeMessage env m w1) = []).
  { unfold createSummarizeMessage, createBuildMessage. rewrite !bind_eq.
    cbv beta zeta. rewrite range_trace. cbn [app].
    destruct (String.eqb _ ""); reflexivity. }
  rewrite Hmsg. cbn [app].
  set (msg := result (createSummarizeMessage env m w1)).
  set (w2 := world (createSummarizeMessage env m w1)).
  rewrite bind_eq. cbv beta zeta. rewrite bind_eq. cbv beta zeta.
  unfold printTable, callErr.
  destruct (PrintTable env "" "" msg w2) as [err w3].
  exists msg, err. split; reflexivity.
Qed.

(** *** The detection steps *)

Definition isLookup (c : Call) : bool :=
  match c with
  | CallGetSpecificConfig _ _ _ | CallDetectTechnologies _ _ _ => true
  | _ => false
  end.

Definition isProvisioning (c : Call) : bool :=
  match c with
  | CallCreateDefaultLocalRepo _ _
  | CallCreateDefaultRemoteRepo _ _
  | CallCreateDefaultVirtualRepo _ _ => true
  | _ => false
  end.

Definition isPrintTable (c : Call) : bool :=
  match c with
  | CallPrintTable _ _ _ => true
  | _ => false
  end.

Definition errorOf {A : Type} (r : Result E A) : option E :=
  match r with
  | Ok _ => None
  | Err e => Some e
  end.

Lemma callRes_facts {A : Type} (c : Call) (h : W -> Result E A * W) (w : W) :
  trace (callRes c h w) = [Build_Event c (errorOf (result (callRes c h w)))].
Proof.
  unfold callRes. destruct (h w) as [[v|e] w']; reflexivity.
Qed.

Lemma detectTechnologies_facts (pic : ProjectInitCommand) (w : W) :
  let out := detectTechnologies env pic w in
  StopsOnError (trace out) (errorOf (result out)) /\
  Forall (fun ev => isLookup (call ev) = true) (trace out).
Proof.
  intros out. subst out. rewrite detectTechnologies_run. cbv zeta.
  unfold detectionPass.
  destruct (DetectTechnologies env (projectPath pic) false false w)
    as [[m1|e1] w1]; cbn [fst snd].
  - destruct (size m1 =? 0)%nat.
    + destruct (DetectTechnologies env (projectPath pic) false true w1)
        as [[m2|e2] w2]; cbn [fst snd errorOf detectEvent]; run_proj.
      * split; [split; [apply Halting_ok|intros _]|]; repeat constructor.
      * split; [split; [|discriminate]|repeat constructor].
        apply (Halting_failed [_] _ e2); [repeat constructor|reflexivity].
    + run_proj. cbn [errorOf detectEvent].
      split; [split; [apply Halting_ok|intros _]|]; repeat constructor.
  - run_proj. cbn [errorOf detectEvent].
    split; [split; [|discriminate]|repeat constructor].
    apply (Halting_failed [] _ e1); [repeat constructor|reflexivity].
Qed.

Lemma detectionSteps_facts (pic : ProjectInitCommand) (w : W) :
  let det := detectionSteps pic w in
  StopsOnError (trace det) (errorOf (snd (result det))) /\
  Forall (fun ev => isLookup (call ev) = true) (trace det) /\
  projectPath (fst (result det)) = projectPath pic /\
  (serverId pic <> "" -> fst (result det) = pic).
Proof.
  intros det. subst det. unfold detectionSteps.
  destruct (String.eqb_spec (serverId pic) "") as [Hid|Hid].
  - rewrite bind_eq. cbv beta zeta. unfold getSpecificConfig.
    rewrite callRes_facts.
    destruct (result (callRes _ _ w)) as [d|e].
    + rewrite bind_eq. cbv beta zeta. unfold ret. run_proj. rewrite app_nil_r.
      destruct (detectTechnologies_facts (SetServerId pic (config.ServerId d))
                  (world (callRes (CallGetSpecificConfig "" true false)
                            (GetSpecificConfig env "" true false) w)))
        as ([Hh Hn] & Hl).
      cbv zeta in Hh, Hn, Hl. cbn [errorOf].
      split; [split|split; [|split]].
      * apply (Halting_app [_]); [repeat constructor|exact Hh].
      * intros Hr. constructor; [reflexivity|auto].
      * constructor; [reflexivity|exact Hl].
      * reflexivity.
      * congruence.
    + unfold ret. run_proj. cbn [errorOf app].
      split; [split; [|discriminate]|split; [|split]].
      * apply (Halting_failed [] _ e); [constructor|reflexivity].
      * repeat constructor.
      * reflexivity.
      * reflexivity.
  - rewrite bind_eq. cbv beta zeta. unfold ret. run_proj. rewrite app_nil_r.
    destruct (detectTechnologies_facts pic w) as (Hs & Hl).
    split; [exact Hs|split; [exact Hl|split; reflexivity]].
Qed.

Lemma FollowsPlan_In (p : list Call) (t : list (Event E)) (r : option E) (ev : Event E) :
  FollowsPlan p t r -> In ev t -> In (call ev) p.
Proof.
  intros (later & -> & _) Hin. apply in_or_app. left. apply in_map. exact Hin.
Qed.

Lemma plan_provisioning_or_config (pic : ProjectInitCommand) (techs : list Technology)
  (c : Call) :
  In c (plan pic techs) ->
  exists tech,
    In tech techs /\
    (isProvisioning c = true \/
     c = CallCreateDirIfNotExist (jfrogProjectDir (projectPath pic)) \/
     exists data,
       MarshalConfigFile env (projectConfigFile env tech (serverId pic)) = Ok data /\
       c = CallWriteFile (projectConfigFilePath tech (projectPath pic)) data 420).
Proof.
  unfold plan. intros Hin. apply in_flat_map in Hin as (tech & Htech & Hin).
  exists tech. split; [exact Htech|]. unfold techCalls in Hin.
  apply in_app_or in Hin as [Hin|Hin].
  - destruct Hin as [<-|[<-|[<-|[<-|[]]]]]; auto.
  - destruct (MarshalConfigFile env _) as [data|e]; [|destruct Hin].
    destruct Hin as [<-|[]]. right. right. exists data. auto.
Qed.

Lemma initTechnologies_wrote (techs : list Technology) (pic : ProjectInitCommand) (w : W)
  (filename data : string) :
  wrote (initTechnologies env techs pic w) filename data ->
  exists tech,
    In tech techs /\
    filename = projectConfigFilePath tech (projectPath pic) /\
    MarshalConfigFile env (projectConfigFile env tech (serverId pic)) = Ok data.
Proof.
  intros (perm & err & Hin).
  apply (FollowsPlan_In _ _ _ _ (initTechnologies_plan techs pic w)) in Hin.
  apply plan_provisioning_or_config in Hin as (tech & Htech & [H|[H|H]]).
  - discriminate.
  - discriminate.
  - destruct H as (data' & Hm & [= -> -> _]). eauto.
Qed.

(** *** Run *)

Lemma succeeded_In (t : list (Event E)) (ev : Event E) (e : E) :
  Forall succeeded t -> In ev t -> failure ev = Some e -> False.
Proof.
  intros Hall Hin Hev. rewrite Forall_forall in Hall.
  apply list_elem_of_In, Hall in Hin. unfold succeeded in Hin. congruence.
Qed.

Lemma createBuildConfig_not_provisioning (pic : ProjectInitCommand) (w : W) :
  Forall (fun ev => isProvisioning (call ev) = false) (trace (createBuildConfig env pic w)).
Proof.
  rewrite createBuildConfig_run. cbv zeta.
  destruct (fst (CreateDirIfNotExist env _ w)); [repeat constructor|].
  destruct (MarshalBuildConfigFile env _); repeat constructor.
Qed.

Lemma lookup_not_provisioning (t : list (Event E)) :
  Forall (fun ev => isLookup (call ev) = true) t ->
  Forall (fun ev => isProvisioning (call ev) = false) t.
Proof.
  intros H. eapply Forall_impl; [exact H|].
  intros ev. cbv beta. destruct (call ev); cbn; intros Hc;
    first [reflexivity|discriminate].
Qed.

(** C4.  Every call of [Run] that fails, the printing of the summary
    apart, is the last call of the run, and [Run] returns its error
    as it is: nothing is provisioned, written or undone after it.  When
    the detection gave the map [m], the loop visits every key of [m]
    once, in some order [techs], and its calls are the first calls of
    the plan for [techs]: for each technology in turn, the local, the
    remote and the virtual repository, then the directory and the file
    of its deployment config.  The loop ends before the end of the plan
    only with an error; the calls made before and after the loop
    provision nothing. *)
Theorem run_provisions_then_writes (pic : ProjectInitCommand) (w : W) :
  let out := Run env pic w in
  let det := detectionSteps pic w in
  let pic' := fst (result det) in
  (forall pre ev post e,
      trace out = pre ++ ev :: post ->
      isPrintTable (call ev) = false ->
      failure ev = Some e ->
      post = [] /\ snd (result out) = Some e) /\
  (forall m,
      snd (result det) = Ok m ->
      exists techs done rest later,
        techs ≡ₚ (map_to_list m).*1 /\
        trace out = trace det ++ done ++ rest /\
        plan pic' techs = map call done ++ later /\
        (later <> [] -> rest = [] /\ exists e, snd (result out) = Some e) /\
        (rest <> [] -> Forall succeeded done) /\
        Forall (fun ev => isProvisioning (call ev) = false) (trace det ++ rest)).
Proof.
  intros out det pic'.
  destruct (detectionSteps_facts pic w) as ([Hdh Hdn] & Hdl & _).
  cbv zeta in Hdh, Hdn, Hdl. fold det in Hdh, Hdn, Hdl.
  pose proof (Run_steps pic w) as Hrun. cbv zeta in Hrun.
  fold det pic' out in Hrun.
  destruct (snd (result det)) as [m|e0] eqn:Hm; cbn [errorOf] in *.
  2: { split; [|intros m [=]]. rewrite Hrun. run_proj.
       intros pre ev post e Ht _ Hev. eapply Halting_last; eauto. }
  specialize (Hdn eq_refl).
  set (rg := range env m (world det)) in *.
  set (lp := initTechnologies env (result rg) pic' (world rg)) in *.
  destruct (initTechnologies_stops (result rg) pic' (world rg)) as [Hlh Hln].
  destruct (initTechnologies_plan (result rg) pic' (world rg)) as (later & Hplan & Hlater).
  cbv zeta in Hlh, Hln, Hplan, Hlater. fold lp in Hlh, Hln, Hplan, Hlater.
  destruct (result lp) as [e1|] eqn:Hlp.
  { rewrite Hrun. run_proj. split.
    - intros pre ev post e Ht _ Hev.
      eapply Halting_last; [|exact Ht|exact Hev]. apply Halting_app; assumption.
    - intros m' [= <-]. exists (result rg), (trace lp), [], later.
      split; [apply range_Permutation|]. rewrite !app_nil_r.
      split; [reflexivity|]. split; [exact Hplan|].
      split; [eauto|]. split; [congruence|].
      apply lookup_not_provisioning, Hdl. }
  specialize (Hln eq_refl). specialize (Hlater eq_refl). subst later.
  rewrite app_nil_r in Hplan.
  set (bc := createBuildConfig env pic' (world lp)) in *.
  destruct (createBuildConfig_stops pic' (world lp)) as [Hbh Hbn].
  pose proof (createBuildConfig_not_provisioning pic' (world lp)) as Hbp.
  cbv zeta in Hbh, Hbn. fold bc in Hbh, Hbn, Hbp.
  destruct (result bc) as [e2|] eqn:Hbc.
  { rewrite Hrun. run_proj. split.
    - intros pre ev post e Ht _ Hev.
      eapply Halting_last; [|exact Ht|exact Hev].
      apply Halting_app; [assumption|]. apply Halting_app; assumption.
    - intros m' [= <-]. exists (result rg), (trace lp), (trace bc), [].
      split; [apply range_Permutation|].
      split; [reflexivity|]. split; [rewrite app_nil_r; exact Hplan|].
      split; [congruence|]. split; [auto|].
      apply Forall_app. split; [apply lookup_not_provisioning, Hdl|exact Hbp]. }
  specialize (Hbn eq_refl).
  destruct (summaryStep_run m (world bc)) as (msg & err & Hpt & Hpr).
  rewrite Hrun. run_proj. rewrite Hpt, Hpr. split.
  - intros pre ev post e Ht Hnp Hev. exfalso.
    assert (Hin : In ev (trace det ++ trace lp ++ trace bc ++
                           [printlnEvent; Build_Event (CallPrintTable "" "" msg) err;
                            printlnEvent])).
    { rewrite Ht. apply in_elt. }
    apply in_app_or in Hin as [Hin|Hin]; [exact (succeeded_In _ _ _ Hdn Hin Hev)|].
    apply in_app_or in Hin as [Hin|Hin]; [exact (succeeded_In _ _ _ Hln Hin Hev)|].
    apply in_app_or in Hin as [Hin|Hin]; [exact (succeeded_In _ _ _ Hbn Hin Hev)|].
    destruct Hin as [<-|[<-|[<-|[]]]]; cbn in *; discriminate.
  - intros m' [= <-].
    exists (result rg), (trace lp),
      (trace bc ++ [printlnEvent; Build_Event (CallPrintTable "" "" msg) err;
                    printlnEvent]), [].
    split; [apply range_Permutation|].
    split; [reflexivity|]. split; [rewrite app_nil_r; exact Hplan|].
    split; [congruence|]. split; [auto|].
    apply Forall_app. split; [apply lookup_not_provisioning, Hdl|].
    apply Forall_app. split; [exact Hbp|repeat constructor].
Qed.

(** The run of the loop and of [createBuildConfig] inside [Run], when
    the detection gave the map [m]. *)
Definition loopRun (pic : ProjectInitCommand) (w : W) (m : TechMap)
  : option E * W * list (Event E) :=
  let det := detectionSteps pic w in
  let rg := range env m (world det) in
  initTechnologies env (result rg) (fst (result det)) (world rg).

Definition buildRun (pic : ProjectInitCommand) (w : W) (m : TechMap)
  : option E * W * list (Event E) :=
  createBuildConfig env (fst (result (detectionSteps pic w))) (world (loopRun pic w m)).

Definition isFileCall (c : Call) : bool :=
  match c with
  | CallCreateDirIfNotExist _ | CallWriteFile _ _ _ => true
  | _ => false
  end.

Definition isPrinting (c : Call) : bool :=
  match c with
  | CallPrintln | CallPrintTable _ _ _ => true
  | _ => false
  end.

Lemma loopRun_calls (pic : ProjectInitCommand) (w : W) (m : TechMap) (ev : Event E) :
  In ev (trace (loopRun pic w m)) ->
  isProvisioning (call ev) = true \/ isFileCall (call ev) = true.
Proof.
  intros Hin. unfold loopRun in Hin.
  apply (FollowsPlan_In _ _ _ _ (initTechnologies_plan _ _ _)) in Hin.
  apply plan_provisioning_or_config in Hin as (tech & _ & [H|[H|H]]).
  - auto.
  - rewrite H. auto.
  - destruct H as (data & _ & ->). auto.
Qed.

Lemma buildRun_calls (pic : ProjectInitCommand) (w : W) (m : TechMap) (ev : Event E) :
  In ev (trace (buildRun pic w m)) -> isFileCall (call ev) = true.
Proof.
  unfold buildRun. rewrite createBuildConfig_run. cbv zeta.
  destruct (fst (CreateDirIfNotExist env _ _)).
  - intros [<-|[]]. reflexivity.
  - destruct (MarshalBuildConfigFile env _).
    + intros [<-|[<-|[]]]; reflexivity.
    + intros [<-|[]]. reflexivity.
Qed.

(** Where a call of [Run] comes from. *)
Lemma Run_event_cases (pic : ProjectInitCommand) (w : W) (ev : Event E) :
  In ev (trace (Run env pic w)) ->
  In ev (trace (detectionSteps pic w)) \/
  exists m,
    snd (result (detectionSteps pic w)) = Ok m /\
    (In ev (trace (loopRun pic w m)) \/
     In ev (trace (buildRun pic w m)) \/
     isPrinting (call ev) = true).
Proof.
  rewrite Run_steps. cbv zeta.
  destruct (snd (result (detectionSteps pic w))) as [m|e0] eqn:Hm; [|auto].
  fold (loopRun pic w m). destruct (result (loopRun pic w m)).
  { run_proj. intros [H|H]%in_app_or; eauto. }
  fold (buildRun pic w m). destruct (result (buildRun pic w m)).
  { run_proj. intros [H|[H|H]%in_app_or]%in_app_or; eauto 6. }
  destruct (summaryStep_run m (world (buildRun pic w m))) as (msg & err & Hpt & _).
  run_proj. rewrite Hpt.
  intros [H|[H|[H|H]%in_app_or]%in_app_or]%in_app_or; eauto 6.
  right. exists m. split; [reflexivity|]. right. right.
  destruct H as [<-|[<-|[<-|[]]]]; reflexivity.
Qed.

Lemma Run_server (pic : ProjectInitCommand) (w : W) :
  fst (result (Run env pic w)) = fst (result (detectionSteps pic w)).
Proof.
  rewrite Run_steps. cbv zeta.
  destruct (snd (result (detectionSteps pic w))); [|reflexivity].
  destruct (result (initTechnologies env _ _ _)); [reflexivity|].
  destruct (result (createBuildConfig env _ _)); reflexivity.
Qed.

Lemma buildConfigFile_path (pic pic' : ProjectInitCommand) :
  projectPath pic' = projectPath pic -> buildConfigFile pic' = buildConfigFile pic.
Proof. unfold buildConfigFile. intros ->. reflexivity. Qed.

(** Whatever [Run] writes is the build config of the project or the
    deployment config of a detected technology. *)
Lemma Run_wrote (pic : ProjectInitCommand) (w : W) (filename data : string) :
  wrote (Run env pic w) filename data ->
  let path := projectPath pic in
  let id := serverId (fst (result (Run env pic w))) in
  (filename = buildConfigFilePath path /\
   MarshalBuildConfigFile env (buildConfigFile pic) = Ok data) \/
  (exists m tech,
      snd (result (detectionSteps pic w)) = Ok m /\
      is_Some (m !! tech) /\
      filename = projectConfigFilePath tech path /\
      MarshalConfigFile env (projectConfigFile env tech id) = Ok data).
Proof.
  intros (perm & err & Hin) path id. subst id. rewrite Run_server.
  destruct (detectionSteps_facts pic w) as (_ & Hdl & Hpath & _).
  cbv zeta in Hdl, Hpath.
  apply Run_event_cases in Hin as [Hin|(m & Hm & [Hin|[Hin|Hin]])].
  - rewrite Forall_forall in Hdl. apply list_elem_of_In, Hdl in Hin. discriminate.
  - right. exists m.
    destruct (initTechnologies_wrote _ _ _ filename data
                (ex_intro _ perm (ex_intro _ err Hin))) as (tech & Htech & Hf & Hd).
    exists tech. rewrite Hpath in Hf. split; [exact Hm|]. split; [|auto].
    apply list_elem_of_In in Htech. rewrite range_Permutation in Htech.
    apply list_elem_of_fmap in Htech as ([k v] & -> & Hkv).
    apply elem_of_map_to_list in Hkv. cbn. eauto.
  - left.
    destruct (createBuildConfig_wrote _ _ filename data
                (ex_intro _ perm (ex_intro _ err Hin))) as (Hf & Hd).
    rewrite Hpath in Hf. rewrite (buildConfigFile_path pic _ Hpath) in Hd. auto.
  - discriminate.
Qed.

Lemma loopRun_empty (pic : ProjectInitCommand) (w : W) :
  trace (loopRun pic w ∅) = [] /\ result (loopRun pic w ∅) = None.
Proof.
  unfold loopRun. cbv zeta.
  assert (Hrg : result (range env ∅ (world (detectionSteps pic w))) = []).
  { apply Permutation_nil_r. rewrite range_Permutation.
    rewrite map_to_list_empty. reflexivity. }
  rewrite Hrg. split; reflexivity.
Qed.

(** C5.  When the detection returns the empty set, [Run] makes no
    provisioning call, and the only file it writes is the build config
    of the project: after the detection it calls [createBuildConfig]
    and, when that succeeds, prints the summary. *)
Theorem no_technology_no_provisioning (pic : ProjectInitCommand) (w : W) :
  let out := Run env pic w in
  let det := detectionSteps pic w in
  snd (result det) = Ok ∅ ->
  Forall (fun ev => isProvisioning (call ev) = false) (trace out) /\
  (forall filename data,
      wrote out filename data ->
      filename = filepath.Join [filepath.Join [projectPath pic; ".jfrog"; "projects"];
                                "build.yaml"] /\
      MarshalBuildConfigFile env (buildConfigFile pic) = Ok data) /\
  (exists printed,
      trace out = trace det ++ trace (buildRun pic w ∅) ++ printed /\
      Forall (fun ev => isPrinting (call ev) = true) printed).
Proof.
  intros out det Hm.
  assert (Hno : forall ev, In ev (trace out) -> isProvisioning (call ev) = false).
  { intros ev Hin.
    destruct (detectionSteps_facts pic w) as (_ & Hdl & _).
    cbv zeta in Hdl. apply lookup_not_provisioning in Hdl.
    rewrite Forall_forall in Hdl.
    apply Run_event_cases in Hin as [Hin|(m & Hm' & Hin)].
    - apply Hdl, list_elem_of_In, Hin.
    - fold det in Hm'. rewrite Hm in Hm'. injection Hm' as <-.
      destruct Hin as [Hin|[Hin|Hin]].
      + rewrite (proj1 (loopRun_empty pic w)) in Hin. destruct Hin.
      + apply buildRun_calls in Hin. destruct (call ev); cbn in *; congruence.
      + destruct (call ev); cbn in *; congruence. }
  split; [apply Forall_forall; intros ev Hin; apply Hno, list_elem_of_In, Hin|].
  split.
  - intros filename data Hw. destruct (Run_wrote _ _ _ _ Hw) as [H|H]; [exact H|].
    destruct H as (m & tech & Hm' & [v Hv] & _).
    fold det in Hm'. rewrite Hm in Hm'. injection Hm' as <-.
    rewrite lookup_empty in Hv. discriminate.
  - unfold out, det in *. rewrite Run_steps. cbv zeta. rewrite Hm.
    fold (loopRun pic w ∅). destruct (loopRun_empty pic w) as [Ht Hr].
    rewrite Hr, Ht. fold (buildRun pic w ∅). cbn [app].
    destruct (result (buildRun pic w ∅)).
    + exists []. run_proj. rewrite app_nil_r. split; [reflexivity|constructor].
    + destruct (summaryStep_run ∅ (world (buildRun pic w ∅))) as (msg & err & Hpt & _).
      run_proj. rewrite Hpt. eexists. split; [reflexivity|repeat constructor].
Qed.



(** [SameTargets id data]: [data] is the marshalled form of a record
    whose resolver and deployer are the same repository reference, on
    the server [id]. *)
Definition SameTargets (id data : string) : Prop :=
  exists c : ConfigFile,
    MarshalConfigFile env c = Ok data /\
    Resolver c = Deployer c /\
    ServerId (Resolver c) = id /\ ServerId (Deployer c) = id /\
    Repo (Resolver c) = Repo (Deployer c) /\
    ReleaseRepo (Resolver c) = ReleaseRepo (Deployer c) /\
    SnapshotRepo (Resolver c) = SnapshotRepo (Deployer c).

Lemma projectConfigFile_SameTargets (tech : Technology) (id data : string) :
  MarshalConfigFile env (projectConfigFile env tech id) = Ok data ->
  SameTargets id data.
Proof.
  intros Hm. exists (projectConfigFile env tech id). split; [exact Hm|].
  destruct (projectConfigFile_resolver_deployer tech id) as [Heq Hid].
  rewrite <- Heq. intuition congruence.
Qed.

(** C6.  In every deployment config record that is written, for any
    technology, the resolver and the deployer are the same repository
    reference: the same server identifier, which is the one of the
    command, and the same repository names.  This holds of every file
    that [createProjectBuildConfigs] writes and of every file that [Run]
    writes, the build config of the project apart. *)
Theorem resolver_is_deployer (tech : Technology) (pic : ProjectInitCommand) (w : W) :
  (forall path id filename data,
      wrote (createProjectBuildConfigs env tech path id w) filename data ->
      SameTargets id data) /\
  (forall filename data,
      wrote (Run env pic w) filename data ->
      (filename = buildConfigFilePath (projectPath pic) /\
       MarshalBuildConfigFile env (buildConfigFile pic) = Ok data) \/
      SameTargets (serverId (fst (result (Run env pic w)))) data).
Proof.
  split.
  - intros path id filename data Hw.
    apply createProjectBuildConfigs_wrote in Hw as [_ Hm].
    eapply projectConfigFile_SameTargets, Hm.
  - intros filename data Hw.
    destruct (Run_wrote _ _ _ _ Hw) as [H|(m & tech' & _ & _ & _ & Hm)]; [left; exact H|].
    right. eapply projectConfigFile_SameTargets, Hm.
Qed.

(** *** The name of the build *)

(** The reading of the build name that does not depend on trailing
    separators: the separators at the end of the path are dropped, and
    the name is the base name of the parent directory of what is left. *)
Definition stripTrailingSeparators (path : string) : string :=
  string_of_list_ascii (rev (filepath.dropSeps (rev (list_ascii_of_string path)))).

Definition parentDirBasename (path : string) : string :=
  filepath.Base (filepath.Dir (stripTrailingSeparators path)).

Definition endsWithSeparator (path : string) : bool :=
  match rev (list_ascii_of_string path) with
  | c :: _ => filepath.IsPathSeparator c
  | [] => false
  end.

Lemma stripTrailingSeparators_id (path : string) :
  endsWithSeparator path = false -> stripTrailingSeparators path = path.
Proof.
  unfold endsWithSeparator, stripTrailingSeparators. intros Hend.
  assert (Hd : filepath.dropSeps (rev (list_ascii_of_string path))
               = rev (list_ascii_of_string path)).
  { destruct (rev (list_ascii_of_string path)) as [|c r]; [reflexivity|].
    cbn [filepath.dropSeps]. rewrite Hend. reflexivity. }
  rewrite Hd, rev_involutive. apply string_of_list_ascii_of_string.
Qed.

(** C3, amended.  The name of the build config that is written is
    [filepath.Base (filepath.Dir path)] for the project path [path].
    For a path that does not end with a separator, this is the base name
    of the parent directory: the last name but one of a path of plain
    names.  A trailing separator changes the name: for a path of plain
    names followed by a separator, it is the last name of the path, the
    directory of the project itself; for any path that ends with a
    separator, it is the base name of the cleaned path. *)
Theorem build_config_name (pic : ProjectInitCommand) (w : W) :
  let path := projectPath pic in
  let name := filepath.Base (filepath.Dir path) in
  (forall filename data,
      wrote (createBuildConfig env pic w) filename data ->
      exists c : BuildConfigFile,
        MarshalBuildConfigFile env c = Ok data /\
        bcVersion c = 1%Z /\ bcConfigType c = "build" /\ bcBuildName c = name) /\
  (endsWithSeparator path = false -> name = parentDirBasename path) /\
  (forall root names parent last,
      forallb PathFacts.plainName (names ++ [parent; last]) = true ->
      path = PathFacts.pathOf root (names ++ [parent; last]) ->
      name = parent) /\
  (forall root names last,
      forallb PathFacts.plainName (names ++ [last]) = true ->
      path = PathFacts.pathOf root (names ++ [last]) +:+ "/" ->
      name = last) /\
  (forall prefix,
      path = prefix +:+ "/" ->
      name = filepath.Base (filepath.Clean path)).
Proof.
  intros path name. split; [|split; [|split; [|split]]].
  - intros filename data Hw. apply createBuildConfig_wrote in Hw as [_ Hm].
    exists (buildConfigFile pic). split; [exact Hm|]. repeat split.
  - intros Hend. unfold parentDirBasename.
    rewrite stripTrailingSeparators_id by exact Hend. reflexivity.
  - intros root names parent last Hnames Hpath. unfold name. rewrite Hpath.
    apply PathFacts.BaseDir_parent, Hnames.
  - intros root names last Hnames Hpath. unfold name. rewrite Hpath.
    apply PathFacts.BaseDir_trailing, Hnames.
  - intros prefix Hpath. unfold name. rewrite Hpath.
    rewrite PathFacts.Dir_trailing_separator. reflexivity.
Qed.

End Properties.

(** ** The properties on the test double *)

(** A project with a manifest only in a nested directory: the first
    pass finds nothing and the recursive pass finds npm. *)
Lemma detectTechnologies_two_passes_nested :
  result (detectTechnologies (Fake.env ∅ Fake.npmRoot Fake.noFailure) Fake.myapp 0%nat)
  = Ok Fake.npmRoot /\
  map call (trace (detectTechnologies (Fake.env ∅ Fake.npmRoot Fake.noFailure)
                     Fake.myapp 0%nat))
  = [CallDetectTechnologies "/tmp/p/myapp" false false;
     CallDetectTechnologies "/tmp/p/myapp" false true].
Proof.
  destruct (detectTechnologies_two_passes
              (Fake.env ∅ Fake.npmRoot Fake.noFailure) Fake.myapp 0%nat)
    as (_ & _ & Hempty & _).
  destruct Hempty as (Hr & _ & Ht); [reflexivity|].
  split; [exact Hr|]. rewrite Ht. reflexivity.
Defined.

(** The Maven config of the project /tmp/p/myapp. *)
Lemma deployment_config_repositories_maven :
  exists c : ConfigFile,
    Fake.showConfigFile c
    = Fake.showConfigFile
        (projectConfigFile (Fake.env Fake.npmRoot ∅ Fake.noFailure)
           coreutils.Maven "local-server") /\
    Resolver c = repository "local-server" "" "virtual-maven" "virtual-maven" /\
    Deployer c = repository "local-server" "" "virtual-maven" "virtual-maven".
Proof.
  destruct (deployment_config_repositories
              (Fake.env Fake.npmRoot ∅ Fake.noFailure)
              coreutils.Maven "/tmp/p/myapp" "local-server" 0%nat
              "/tmp/p/myapp/.jfrog/projects/maven.yaml"
              (Fake.showConfigFile
                 (projectConfigFile (Fake.env Fake.npmRoot ∅ Fake.noFailure)
                    coreutils.Maven "local-server")))
    as (c & Hm & Hmaven & _).
  - exists 420%Z, None. right. left. reflexivity.
  - exists c. split; [injection Hm as Hm; exact Hm|]. apply Hmaven. reflexivity.
Defined.

(** The build name of /tmp/p/myapp/ is myapp, not p, the base name of
    the parent directory; that of /tmp/p/myapp is p. *)
Lemma build_name_trailing_separator :
  bcBuildName (buildConfigFile (SetProjectPath Fake.myapp "/tmp/p/myapp/")) = "myapp" /\
  parentDirBasename "/tmp/p/myapp/" = "p" /\
  bcBuildName (buildConfigFile (SetProjectPath Fake.myapp "/tmp/p/myapp")) = "p" /\
  bcBuildName (buildConfigFile (SetProjectPath Fake.myapp "/tmp/p/myapp/"))
  <> parentDirBasename "/tmp/p/myapp/".
Proof.
  repeat split; try (vm_compute; reflexivity). vm_compute. discriminate.
Qed.

(** The two build names, from the theorem. *)
Lemma build_config_name_myapp :
  filepath.Base (filepath.Dir "/tmp/p/myapp") = "p" /\
  filepath.Base (filepath.Dir "/tmp/p/myapp/") = "myapp".
Proof.
  split.
  - destruct (build_config_name (Fake.env Fake.npmRoot ∅ Fake.noFailure)
                Fake.myapp 0%nat) as (_ & _ & Hparent & _).
    apply (Hparent true ["tmp"] "p" "myapp"); vm_compute; reflexivity.
  - destruct (build_config_name (Fake.env Fake.npmRoot ∅ Fake.noFailure)
                (SetProjectPath Fake.myapp "/tmp/p/myapp/") 0%nat)
      as (_ & _ & _ & Hlast & _).
    apply (Hlast true ["tmp"; "p"] "myapp"); vm_compute; reflexivity.
Defined.

(** The remote repository cannot be made: the run stops there, with
    that error. *)
Lemma run_provisions_then_writes_remote_failure :
  map call (trace (Run (Fake.env Fake.npmRoot ∅ Fake.remoteFails) Fake.myapp 0%nat))
  = [CallDetectTechnologies "/tmp/p/myapp" false false;
     CallCreateDefaultLocalRepo "npm" "local-server";
     CallCreateDefaultRemoteRepo "npm" "local-server"] /\
  snd (result (Run (Fake.env Fake.npmRoot ∅ Fake.remoteFails) Fake.myapp 0%nat))
  = Some "remote repository refused".
Proof.
  split; [vm_compute; reflexivity|].
  destruct (run_provisions_then_writes
              (Fake.env Fake.npmRoot ∅ Fake.remoteFails) Fake.myapp 0%nat)
    as [Hhalt _].
  apply (Hhalt
           [Build_Event (CallDetectTechnologies "/tmp/p/myapp" false false) None;
            Build_Event (CallCreateDefaultLocalRepo "npm" "local-server") None]
           (Build_Event (CallCreateDefaultRemoteRepo "npm" "local-server")
              (Some "remote repository refused")) []); vm_compute; reflexivity.
Defined.

(** A project without a manifest: only the build config is written. *)
Lemma no_technology_no_provisioning_empty :
  snd (result (detectionSteps (Fake.env ∅ ∅ Fake.noFailure) Fake.myapp 0%nat)) = Ok ∅ /\
  Forall (fun ev => isProvisioning (call ev) = false)
    (trace (Run (Fake.env ∅ ∅ Fake.noFailure) Fake.myapp 0%nat)) /\
  (forall filename data,
      wrote (Run (Fake.env ∅ ∅ Fake.noFailure) Fake.myapp 0%nat) filename data ->
      filename = "/tmp/p/myapp/.jfrog/projects/build.yaml").
Proof.
  split; [vm_compute; reflexivity|].
  destruct (no_technology_no_provisioning (Fake.env ∅ ∅ Fake.noFailure) Fake.myapp 0%nat)
    as (Hno & Hfile & _); [vm_compute; reflexivity|].
  split; [exact Hno|]. intros filename data Hw.
  destruct (Hfile filename data Hw) as [-> _]. vm_compute. reflexivity.
Defined.


(** A technology that the switch does not know. *)
Lemma unsupported_technology_config_nuget :
  ~ In "Nuget" supported /\
  wrote (createProjectBuildConfigs (Fake.env ∅ ∅ Fake.noFailure)
           "Nuget" "/tmp/p/myapp" "local-server" 0%nat)
    "/tmp/p/myapp/.jfrog/projects/nuget.yaml"
    (Fake.showConfigFile
       {| Version := 1; ConfigType := "nuget";
          Resolver := repository "local-server" "" "" "";
          Deployer := repository "local-server" "" "" "" |}) /\
  result (createProjectBuildConfigs (Fake.env ∅ ∅ Fake.noFailure)
            "Nuget" "/tmp/p/myapp" "local-server" 0%nat) = None.
Proof.
  assert (Hno : ~ In "Nuget" supported).
  { intros [H|[H|[H|[H|[H|[H|[]]]]]]]; discriminate. }
  split; [exact Hno|].
  destruct (unsupported_technology_config (Fake.env ∅ ∅ Fake.noFailure)
              "Nuget" "/tmp/p/myapp" "local-server" 0%nat Hno)
    as (_ & Hwritten & _).
  apply Hwritten; vm_compute; reflexivity.
Defined.



(** The npm config that [Run] writes for /tmp/p/myapp has one target. *)
Lemma resolver_is_deployer_npm :
  wrote (Run (Fake.env Fake.npmRoot ∅ Fake.noFailure) Fake.myapp 0%nat)
    "/tmp/p/myapp/.jfrog/projects/npm.yaml"
    (Fake.showConfigFile
       (projectConfigFile (Fake.env Fake.npmRoot ∅ Fake.noFailure)
          coreutils.Npm "local-server")) /\
  SameTargets (Fake.env Fake.npmRoot ∅ Fake.noFailure) "local-server"
    (Fake.showConfigFile
       (projectConfigFile (Fake.env Fake.npmRoot ∅ Fake.noFailure)
          coreutils.Npm "local-server")).
Proof.
  assert (Hw : wrote (Run (Fake.env Fake.npmRoot ∅ Fake.noFailure) Fake.myapp 0%nat)
                 "/tmp/p/myapp/.jfrog/projects/npm.yaml"
                 (Fake.showConfigFile
                    (projectConfigFile (Fake.env Fake.npmRoot ∅ Fake.noFailure)
                       coreutils.Npm "local-server"))).
  { exists 420%Z, None. vm_compute. do 5 right. left. reflexivity. }
  split; [exact Hw|].
  destruct (resolver_is_deployer (Fake.env Fake.npmRoot ∅ Fake.noFailure)
              coreutils.Npm Fake.myapp 0%nat) as [_ Hrun].
  destruct (Hrun _ _ Hw) as [[Hfile _]|Hsame].
  - vm_compute in Hfile. discriminate.
  - exact Hsame.
Defined.

(** ** Further properties of the command *)

Section Coverage.

Context {W E : Type} (env : Collaborators W E).

Ltac run_bind := rewrite bind_eq; cbv beta zeta.
Ltac run_proj := cbn [ret result world trace fst snd].

Definition isGetSpecificConfig (c : Call) : bool :=
  match c with
  | CallGetSpecificConfig _ _ _ => true
  | _ => false
  end.

Definition isWriteFile (c : Call) : bool :=
  match c with
  | CallWriteFile _ _ _ => true
  | _ => false
  end.

Definition lookupEvent (r : Result E config.ServerDetails) : Event E :=
  Build_Event (CallGetSpecificConfig "" true false) (errorOf r).

Lemma detectTechnologies_no_lookup (pic : ProjectInitCommand) (w : W) :
  Forall (fun ev => isGetSpecificConfig (call ev) = false)
    (trace (detectTechnologies env pic w)).
Proof.
  rewrite detectTechnologies_run. cbv zeta.
  destruct (fst (detectionPass env (projectPath pic) false w)) as [m|e];
    [|repeat constructor].
  destruct (size m =? 0)%nat; repeat constructor.
Qed.

Lemma runWithServer_no_lookup (pic : ProjectInitCommand) (w : W) :
  Forall (fun ev => isGetSpecificConfig (call ev) = false)
    (trace (runWithServer env pic w)).
Proof.
  pose proof (detectTechnologies_no_lookup pic w) as Hdet.
  rewrite runWithServer_steps. cbv zeta.
  destruct (result (detectTechnologies env pic w)) as [m|e]; [|exact Hdet].
  set (rg := range env m (world (detectTechnologies env pic w))).
  set (lp := initTechnologies env (result rg) pic (world rg)).
  assert (Hlp : Forall (fun ev => isGetSpecificConfig (call ev) = false) (trace lp)).
  { apply Forall_forall. intros ev Hin%list_elem_of_In.
    apply (FollowsPlan_In _ _ _ _ (initTechnologies_plan env _ _ _)) in Hin.
    apply plan_provisioning_or_config in Hin as (tech & _ & [H|[H|H]]).
    - destruct (call ev); cbn in *; congruence.
    - rewrite H. reflexivity.
    - destruct H as (data & _ & ->). reflexivity. }
  destruct (result lp); run_proj; [apply Forall_app; auto|].
  set (bc := createBuildConfig env pic (world lp)).
  assert (Hbc : Forall (fun ev => isGetSpecificConfig (call ev) = false) (trace bc)).
  { unfold bc. rewrite createBuildConfig_run. cbv zeta.
    destruct (fst (CreateDirIfNotExist env _ _)); [repeat constructor|].
    destruct (MarshalBuildConfigFile env _); repeat constructor. }
  destruct (result bc); run_proj; [repeat (apply Forall_app; split); auto|].
  destruct (summaryStep_run env m (world bc)) as (msg & err & Hpt & _).
  rewrite Hpt. apply Forall_app. split; [exact Hdet|].
  apply Forall_app. split; [exact Hlp|].
  apply Forall_app. split; [exact Hbc|repeat constructor].
Qed.

(** X1.  The server identifier is looked up only when the command has
    none: with an identifier, [Run] never calls [GetSpecificConfig] and
    leaves the command as it is; without one, the lookup is the first
    call and the only lookup, its error ends the run before anything
    else is done, and its answer becomes the identifier of the
    command. *)
Theorem Run_server_lookup (pic : ProjectInitCommand) (w : W) :
  let out := Run env pic w in
  let cfg := GetSpecificConfig env "" true false w in
  (serverId pic <> "" ->
   fst (result out) = pic /\
   Forall (fun ev => isGetSpecificConfig (call ev) = false) (trace out)) /\
  (serverId pic = "" ->
   (exists rest,
       trace out = lookupEvent (fst cfg) :: rest /\
       Forall (fun ev => isGetSpecificConfig (call ev) = false) rest) /\
   (forall e, fst cfg = Err e -> out = (pic, Some e, snd cfg, [lookupEvent (fst cfg)])) /\
   (forall d, fst cfg = Ok d ->
              fst (result out) = SetServerId pic (config.ServerId d))).
Proof.
  intros out cfg. subst out cfg. unfold Run. split.
  - intros Hid. apply String.eqb_neq in Hid. rewrite Hid. run_bind.
    unfold ret. run_proj. rewrite app_nil_r.
    split; [reflexivity|apply runWithServer_no_lookup].
  - intros Hid. rewrite Hid. cbn [String.eqb]. run_bind.
    unfold getSpecificConfig. rewrite callRes_facts.
    unfold callRes, lookupEvent.
    destruct (GetSpecificConfig env "" true false w) as [[d|e] w1];
      cbn [fst snd result world trace errorOf].
    + run_bind. unfold ret. run_proj. rewrite app_nil_r. cbn [app].
      split; [eexists; split; [reflexivity|apply runWithServer_no_lookup]|].
      split; [intros e [=]|intros d' [= <-]; reflexivity].
    + unfold ret. run_proj. cbn [app].
      split; [eexists; split; [reflexivity|constructor]|].
      split; [intros e' [= <-]; reflexivity|intros d [=]].
Qed.

(** The arguments of a provisioning call. *)
Definition provisions (c : Call) : option (Technology * string) :=
  match c with
  | CallCreateDefaultLocalRepo tech id
  | CallCreateDefaultRemoteRepo tech id
  | CallCreateDefaultVirtualRepo tech id => Some (tech, id)
  | _ => None
  end.

Lemma techCalls_provisions (pic : ProjectInitCommand) (tech tech' : Technology)
  (id : string) (c : Call) :
  In c (techCalls env pic tech') -> provisions c = Some (tech, id) ->
  tech = tech' /\ id = serverId pic.
Proof.
  unfold techCalls. intros [Hin|Hin]%in_app_or.
  - destruct Hin as [<-|[<-|[<-|[<-|[]]]]]; cbn; intros [=]; auto.
  - destruct (MarshalConfigFile env _); [|destruct Hin].
    destruct Hin as [<-|[]]. discriminate.
Qed.

(** X2.  Every provisioning call of [Run] is made for a technology of
    the detected map and with the server identifier that the command
    holds when [Run] returns; [Run] does not change the project path of
    the command. *)
Theorem Run_provisions_detected (pic : ProjectInitCommand) (w : W) :
  let out := Run env pic w in
  (forall ev tech id,
      In ev (trace out) ->
      provisions (call ev) = Some (tech, id) ->
      id = serverId (fst (result out)) /\
      exists m,
        snd (result (detectionSteps env pic w)) = Ok m /\ is_Some (m !! tech)) /\
  projectPath (fst (result out)) = projectPath pic.
Proof.
  intros out. subst out. rewrite Run_server.
  destruct (detectionSteps_facts env pic w) as (_ & Hdl & Hpath & _).
  cbv zeta in Hdl, Hpath. split; [|exact Hpath].
  intros ev tech id Hin Hprov.
  apply Run_event_cases in Hin as [Hin|(m & Hm & [Hin|[Hin|Hin]])].
  - rewrite Forall_forall in Hdl. apply list_elem_of_In, Hdl in Hin.
    destruct (call ev); cbn in *; congruence.
  - unfold loopRun in Hin.
    apply (FollowsPlan_In _ _ _ _ (initTechnologies_plan env _ _ _)) in Hin.
    unfold plan in Hin. apply in_flat_map in Hin as (tech' & Htech & Hin).
    destruct (techCalls_provisions _ _ _ _ _ Hin Hprov) as [-> ->].
    split; [reflexivity|]. exists m. split; [exact Hm|].
    apply list_elem_of_In in Htech. rewrite range_Permutation in Htech.
    apply list_elem_of_fmap in Htech as ([k v] & -> & Hkv).
    apply elem_of_map_to_list in Hkv. cbn. eauto.
  - apply buildRun_calls in Hin. destruct (call ev); cbn in *; congruence.
  - destruct (call ev); cbn in *; congruence.
Qed.

(** X3.  When the lookup of the server or the detection fails, [Run]
    returns that error, and all it has done is to look up the server
    and to scan for technologies: no repository, no directory, no file
    and no output. *)
Theorem Run_detection_error (pic : ProjectInitCommand) (w : W) (e : E) :
  let out := Run env pic w in
  let det := detectionSteps env pic w in
  snd (result det) = Err e ->
  snd (result out) = Some e /\
  trace out = trace det /\
  Forall (fun ev => isLookup (call ev) = true) (trace out).
Proof.
  intros out det Herr. subst out det.
  destruct (detectionSteps_facts env pic w) as (_ & Hdl & _).
  cbv zeta in Hdl.
  rewrite Run_steps. cbv zeta. rewrite Herr. run_proj.
  split; [reflexivity|]. split; [reflexivity|exact Hdl].
Qed.

(** *** createDefaultReposIfNeeded *)

Definition localEvent (tech : Technology) (id : string) (err : option E) : Event E :=
  Build_Event (CallCreateDefaultLocalRepo tech id) err.

Definition remoteEvent (tech : Technology) (id : string) (err : option E) : Event E :=
  Build_Event (CallCreateDefaultRemoteRepo tech id) err.

Definition virtualEvent (tech : Technology) (id : string) (err : option E) : Event E :=
  Build_Event (CallCreateDefaultVirtualRepo tech id) err.

Lemma createDefaultReposIfNeeded_run (tech : Technology) (id : string) (w : W) :
  let l := CreateDefaultLocalRepo env tech id w in
  let r := CreateDefaultRemoteRepo env tech id (snd l) in
  let v := CreateDefaultVirtualRepo env tech id (snd r) in
  createDefaultReposIfNeeded env tech id w =
    match fst l with
    | Some e => (Some e, snd l, [localEvent tech id (Some e)])
    | None =>
        match fst r with
        | Some e => (Some e, snd r, [localEvent tech id None; remoteEvent tech id (Some e)])
        | None =>
            (fst v, snd v,
             [localEvent tech id None; remoteEvent tech id None;
              virtualEvent tech id (fst v)])
        end
    end.
Proof.
  intros l r v. subst l r v.
  unfold createDefaultReposIfNeeded, createDefaultLocalRepo, createDefaultRemoteRepo,
    createDefaultVirtualRepo, bind, callErr, ret.
  destruct (CreateDefaultLocalRepo env tech id w) as [[e|] w1]; [reflexivity|].
  cbn [fst snd].
  destruct (CreateDefaultRemoteRepo env tech id w1) as [[e|] w2]; [reflexivity|].
  cbn [fst snd].
  destruct (CreateDefaultVirtualRepo env tech id w2) as [err w3]. reflexivity.
Qed.

(** X4.  [createDefaultReposIfNeeded] asks for the local repository
    first, for the remote one only when the local one was made and for
    the virtual one only when both were.  It returns no error exactly
    when the three calls were made and succeeded, and otherwise the
    error of its last call, which is the only one that failed. *)
Theorem createDefaultReposIfNeeded_order (tech : Technology) (id : string) (w : W) :
  let out := createDefaultReposIfNeeded env tech id w in
  (exists later,
      [CallCreateDefaultLocalRepo tech id; CallCreateDefaultRemoteRepo tech id;
       CallCreateDefaultVirtualRepo tech id] = map call (trace out) ++ later) /\
  (exists err rest, trace out = localEvent tech id err :: rest) /\
  (result out = None <->
   trace out = [localEvent tech id None; remoteEvent tech id None;
                virtualEvent tech id None]) /\
  (forall e,
      result out = Some e ->
      exists pre ev,
        trace out = pre ++ [ev] /\ failure ev = Some e /\ Forall succeeded pre).
Proof.
  intros out. subst out. rewrite createDefaultReposIfNeeded_run. cbv zeta.
  destruct (CreateDefaultLocalRepo env tech id w) as [[e1|] w1]; cbn [fst snd].
  { run_proj. split; [eexists; reflexivity|]. split; [eauto|].
    split; [split; discriminate|].
    intros e [= <-]. exists [], (localEvent tech id (Some e1)).
    split; [reflexivity|]. split; [reflexivity|constructor]. }
  destruct (CreateDefaultRemoteRepo env tech id w1) as [[e2|] w2]; cbn [fst snd].
  { run_proj. split; [eexists; reflexivity|]. split; [eauto|].
    split; [split; discriminate|].
    intros e [= <-]. exists [localEvent tech id None], (remoteEvent tech id (Some e2)).
    split; [reflexivity|]. split; [reflexivity|repeat constructor]. }
  destruct (CreateDefaultVirtualRepo env tech id w2) as [[e3|] w3]; cbn [fst snd].
  { run_proj. split; [exists []; reflexivity|]. split; [eauto|].
    split; [split; discriminate|].
    intros e [= <-].
    exists [localEvent tech id None; remoteEvent tech id None],
      (virtualEvent tech id (Some e3)).
    split; [reflexivity|]. split; [reflexivity|repeat constructor]. }
  run_proj. split; [exists []; reflexivity|]. split; [eauto|].
  split; [split; reflexivity|discriminate].
Qed.

(** *** The two writers *)

Definition writeEvent (filename data : string) (err : option E) : Event E :=
  Build_Event (CallWriteFile filename data 420) err.

(** X5.  [createBuildConfig] first makes the directory .jfrog/projects
    of the project.  It returns no error exactly when the directory was
    made and the marshalled record [{1, build, name}] was written to
    build.yaml in it with mode 0644.  When it returns an error, either
    the directory could not be made, or the record could not be
    marshalled, and then nothing is written, or the write failed. *)
Theorem createBuildConfig_outcomes (pic : ProjectInitCommand) (w : W) :
  let out := createBuildConfig env pic w in
  let dir := filepath.Join [projectPath pic; ".jfrog"; "projects"] in
  let file := filepath.Join [dir; "build.yaml"] in
  let record :=
    {| bcVersion := 1; bcConfigType := "build";
       bcBuildName := filepath.Base (filepath.Dir (projectPath pic)) |} in
  (exists err rest, trace out = Build_Event (CallCreateDirIfNotExist dir) err :: rest) /\
  (result out = None <->
   exists data,
     MarshalBuildConfigFile env record = Ok data /\
     trace out = [Build_Event (CallCreateDirIfNotExist dir) None;
                  writeEvent file data None]) /\
  (forall e,
      result out = Some e ->
      trace out = [Build_Event (CallCreateDirIfNotExist dir) (Some e)] \/
      (MarshalBuildConfigFile env record = Err e /\
       trace out = [Build_Event (CallCreateDirIfNotExist dir) None]) \/
      (exists data,
          MarshalBuildConfigFile env record = Ok data /\
          trace out = [Build_Event (CallCreateDirIfNotExist dir) None;
                       writeEvent file data (Some e)])).
Proof.
  intros out dir file record. subst out. rewrite createBuildConfig_run. cbv zeta.
  change (jfrogProjectDir (projectPath pic)) with dir.
  change (buildConfigFilePath (projectPath pic)) with file.
  change (buildConfigFile pic) with record.
  unfold mkdirEvent. change (jfrogProjectDir (projectPath pic)) with dir.
  destruct (CreateDirIfNotExist env dir w) as [[e1|] w1]; cbn [fst snd].
  { run_proj. split; [eauto|]. split.
    - split; [discriminate|intros (data & _ & [=])].
    - intros e [= <-]. auto. }
  destruct (MarshalBuildConfigFile env record) as [data|e2].
  2: { run_proj. split; [eauto|]. split.
       - split; [discriminate|intros (data & [=] & _)].
       - intros e [= <-]. auto. }
  destruct (WriteFile env file data 420 w1) as [[e3|] w2]; cbn [fst snd]; run_proj.
  - split; [eauto|]. split.
    + split; [discriminate|intros (data' & _ & [=])].
    + intros e [= <-]. right. right. exists data. auto.
  - split; [eauto|]. split.
    + split; [intros _; exists data; auto|reflexivity].
    + discriminate.
Qed.

(** X6.  [createProjectBuildConfigs], for any technology, first makes
    the directory .jfrog/projects of the project.  It returns no error
    exactly when the directory was made and the marshalled record of
    the technology was written with mode 0644.  When it returns an
    error, either the directory could not be made, or the record could
    not be marshalled, and then nothing is written, or the write
    failed. *)
Theorem createProjectBuildConfigs_outcomes (tech : Technology) (path id : string) (w : W) :
  let out := createProjectBuildConfigs env tech path id w in
  let dir := filepath.Join [path; ".jfrog"; "projects"] in
  let file := filepath.Join [dir; gostrings.ToLower tech +:+ ".yaml"] in
  let record := projectConfigFile env tech id in
  (exists err rest, trace out = Build_Event (CallCreateDirIfNotExist dir) err :: rest) /\
  (result out = None <->
   exists data,
     MarshalConfigFile env record = Ok data /\
     trace out = [Build_Event (CallCreateDirIfNotExist dir) None;
                  writeEvent file data None]) /\
  (forall e,
      result out = Some e ->
      trace out = [Build_Event (CallCreateDirIfNotExist dir) (Some e)] \/
      (MarshalConfigFile env record = Err e /\
       trace out = [Build_Event (CallCreateDirIfNotExist dir) None]) \/
      (exists data,
          MarshalConfigFile env record = Ok data /\
          trace out = [Build_Event (CallCreateDirIfNotExist dir) None;
                       writeEvent file data (Some e)])).
Proof.
  intros out dir file record. subst out. rewrite createProjectBuildConfigs_run. cbv zeta.
  change (jfrogProjectDir path) with dir.
  change (projectConfigFilePath tech path) with file.
  fold record.
  unfold mkdirEvent. change (jfrogProjectDir path) with dir.
  destruct (CreateDirIfNotExist env dir w) as [[e1|] w1]; cbn [fst snd].
  { run_proj. split; [eauto|]. split.
    - split; [discriminate|intros (data & _ & [=])].
    - intros e [= <-]. auto. }
  destruct (MarshalConfigFile env record) as [data|e2].
  2: { run_proj. split; [eauto|]. split.
       - split; [discriminate|intros (data & [=] & _)].
       - intros e [= <-]. auto. }
  destruct (WriteFile env file data 420 w1) as [[e3|] w2]; cbn [fst snd]; run_proj.
  - split; [eauto|]. split.
    + split; [discriminate|intros (data' & _ & [=])].
    + intros e [= <-]. right. right. exists data. auto.
  - split; [eauto|]. split.
    + split; [intros _; exists data; auto|reflexivity].
    + discriminate.
Qed.

(** *** One turn of the loop *)

(** The calls of a turn that went through, with what they returned. *)
Definition techBlock (pic : ProjectInitCommand) (tech : Technology) (data : string)
  (err : option E) : list (Event E) :=
  [localEvent tech (serverId pic) None; remoteEvent tech (serverId pic) None;
   virtualEvent tech (serverId pic) None; mkdirEvent (projectPath pic) None;
   writeEvent (projectConfigFilePath tech (projectPath pic)) data err].

(** A turn without error made all the calls of the turn. *)
Lemma initTechnology_success (tech : Technology) (pic : ProjectInitCommand) (w : W) :
  result (initTechnology env tech pic w) = None ->
  exists data,
    MarshalConfigFile env (projectConfigFile env tech (serverId pic)) = Ok data /\
    trace (initTechnology env tech pic w) = techBlock pic tech data None.
Proof.
  unfold initTechnology. rewrite bind_eq.
  rewrite createDefaultReposIfNeeded_run. cbv zeta.
  destruct (CreateDefaultLocalRepo env tech (serverId pic) w) as [[e1|] w1];
    cbn [fst snd]; [discriminate|].
  destruct (CreateDefaultRemoteRepo env tech (serverId pic) w1) as [[e2|] w2];
    cbn [fst snd]; [discriminate|].
  destruct (CreateDefaultVirtualRepo env tech (serverId pic) w2) as [[e3|] w3];
    cbn [fst snd]; [discriminate|].
  run_proj. rewrite createProjectBuildConfigs_run. cbv zeta.
  destruct (CreateDirIfNotExist env _ w3) as [[e4|] w4]; cbn [fst snd];
    [discriminate|].
  destruct (MarshalConfigFile env _) as [data|e5]; [|discriminate].
  destruct (WriteFile env _ data 420 w4) as [[e6|] w5]; cbn [fst snd];
    [discriminate|].
  intros _. exists data. split; reflexivity.
Qed.

(** In the trace of a turn, a write comes right after the four calls
    before it, which succeeded. *)
Lemma initTechnology_write_last (tech : Technology) (pic : ProjectInitCommand) (w : W)
  (pre post : list (Event E)) (ev : Event E) :
  trace (initTechnology env tech pic w) = pre ++ ev :: post ->
  isWriteFile (call ev) = true ->
  exists data,
    MarshalConfigFile env (projectConfigFile env tech (serverId pic)) = Ok data /\
    pre ++ [ev] = techBlock pic tech data (failure ev) /\ post = [].
Proof.
  assert (Hshort : forall t pre0 post0 : list (Event E),
             Forall (fun ev' => isWriteFile (call ev') = false) t ->
             t = pre0 ++ ev :: post0 -> isWriteFile (call ev) = true -> False).
  { intros t pre0 post0 Hall -> Hw. apply Forall_app in Hall as [_ Hall].
    apply Forall_cons_1 in Hall as [Hno _]. congruence. }
  unfold initTechnology. rewrite bind_eq.
  rewrite createDefaultReposIfNeeded_run. cbv zeta.
  destruct (CreateDefaultLocalRepo env tech (serverId pic) w) as [[e1|] w1];
    cbn [fst snd].
  { run_proj. intros Ht Hw. exfalso.
    eapply Hshort; [|exact Ht|exact Hw]. repeat constructor. }
  destruct (CreateDefaultRemoteRepo env tech (serverId pic) w1) as [[e2|] w2];
    cbn [fst snd].
  { run_proj. intros Ht Hw. exfalso.
    eapply Hshort; [|exact Ht|exact Hw]. repeat constructor. }
  destruct (CreateDefaultVirtualRepo env tech (serverId pic) w2) as [[e3|] w3];
    cbn [fst snd].
  { run_proj. intros Ht Hw. exfalso.
    eapply Hshort; [|exact Ht|exact Hw]. repeat constructor. }
  run_proj. rewrite createProjectBuildConfigs_run. cbv zeta.
  destruct (CreateDirIfNotExist env _ w3) as [[e4|] w4]; cbn [fst snd].
  { run_proj. intros Ht Hw. exfalso.
    eapply Hshort; [|exact Ht|exact Hw]. repeat constructor. }
  destruct (MarshalConfigFile env _) as [data|e5].
  2: { run_proj. intros Ht Hw. exfalso.
       eapply Hshort; [|exact Ht|exact Hw]. repeat constructor. }
  destruct (WriteFile env _ data 420 w4) as [err w5]; cbn [fst snd]. run_proj.
  intros Ht Hw. exists data. split; [reflexivity|].
  cbn [app] in Ht.
  destruct post as [|x post].
  - change [localEvent tech (serverId pic) None; remoteEvent tech (serverId pic) None;
            virtualEvent tech (serverId pic) None; mkdirEvent (projectPath pic) None;
            {| call := CallWriteFile (projectConfigFilePath tech (projectPath pic)) data 420;
               failure := err |}]
      with ([localEvent tech (serverId pic) None; remoteEvent tech (serverId pic) None;
             virtualEvent tech (serverId pic) None; mkdirEvent (projectPath pic) None]
            ++ [writeEvent (projectConfigFilePath tech (projectPath pic)) data err]) in Ht.
    apply app_inj_tail in Ht as [<- <-]. split; reflexivity.
  - exfalso.
    change [localEvent tech (serverId pic) None; remoteEvent tech (serverId pic) None;
            virtualEvent tech (serverId pic) None; mkdirEvent (projectPath pic) None;
            {| call := CallWriteFile (projectConfigFilePath tech (projectPath pic)) data 420;
               failure := err |}]
      with ([localEvent tech (serverId pic) None; remoteEvent tech (serverId pic) None;
             virtualEvent tech (serverId pic) None; mkdirEvent (projectPath pic) None]
            ++ [writeEvent (projectConfigFilePath tech (projectPath pic)) data err]) in Ht.
    destruct (exists_last (l := x :: post)) as (post' & y & Hy); [discriminate|].
    rewrite Hy in Ht. change (ev :: post' ++ [y]) with ((ev :: post') ++ [y]) in Ht.
    rewrite app_assoc in Ht. apply app_inj_tail in Ht as [Ht _].
    eapply Hshort; [|exact Ht|exact Hw]. repeat constructor.
Qed.

(** *** What comes before a write *)

(** [WritesGuarded G t]: every write of [t] comes right after a block
    of calls [b] such that [G b ev]. *)
Definition WritesGuarded (G : list (Event E) -> Event E -> Prop) (t : list (Event E))
  : Prop :=
  forall pre ev post,
    t = pre ++ ev :: post ->
    isWriteFile (call ev) = true ->
    exists pre' b, pre = pre' ++ b /\ G b ev.

Lemma WritesGuarded_app (G : list (Event E) -> Event E -> Prop) (t1 t2 : list (Event E)) :
  WritesGuarded G t1 -> WritesGuarded G t2 -> WritesGuarded G (t1 ++ t2).
Proof.
  intros H1 H2 pre ev post Ht Hw.
  apply app_eq_app in Ht as (l & [[Ht1 Ht2]|[Hpre Ht2]]).
  - destruct l as [|x l].
    + cbn in Ht2. rewrite app_nil_r in Ht1. subst t1.
      destruct (H2 [] ev post (eq_sym Ht2) Hw) as (pre' & b & Hb & HG).
      exists (pre ++ pre'), b. rewrite <- app_assoc, <- Hb, app_nil_r. auto.
    + injection Ht2 as Hx Hpost. subst x. apply (H1 pre ev l Ht1 Hw).
  - destruct (H2 l ev post Ht2 Hw) as (pre' & b & -> & HG).
    exists (t1 ++ pre'), b. rewrite Hpre, app_assoc. auto.
Qed.

Lemma WritesGuarded_no_write (G : list (Event E) -> Event E -> Prop) (t : list (Event E)) :
  Forall (fun ev => isWriteFile (call ev) = false) t -> WritesGuarded G t.
Proof.
  intros Hall pre ev post -> Hw. apply Forall_app in Hall as [_ Hall].
  apply Forall_cons_1 in Hall as [Hno _]. congruence.
Qed.

Lemma WritesGuarded_impl (G G' : list (Event E) -> Event E -> Prop) (t : list (Event E)) :
  (forall b ev, G b ev -> G' b ev) -> WritesGuarded G t -> WritesGuarded G' t.
Proof.
  intros Himpl H pre ev post Ht Hw.
  destruct (H pre ev post Ht Hw) as (pre' & b & Hb & HG). eauto.
Qed.

(** The four calls before the write of a deployment config. *)
Definition provisioned (pic : ProjectInitCommand) (tech : Technology) : list (Event E) :=
  [localEvent tech (serverId pic) None; remoteEvent tech (serverId pic) None;
   virtualEvent tech (serverId pic) None; mkdirEvent (projectPath pic) None].

(** [ev] writes the deployment config of one of [techs], after [b]. *)
Definition DeploymentWrite (pic : ProjectInitCommand) (techs : list Technology)
  (b : list (Event E)) (ev : Event E) : Prop :=
  exists tech data,
    In tech techs /\
    MarshalConfigFile env (projectConfigFile env tech (serverId pic)) = Ok data /\
    b = provisioned pic tech /\
    call ev = CallWriteFile (projectConfigFilePath tech (projectPath pic)) data 420.

Lemma initTechnology_guarded (tech : Technology) (pic : ProjectInitCommand) (w : W) :
  WritesGuarded (DeploymentWrite pic [tech]) (trace (initTechnology env tech pic w)).
Proof.
  intros pre ev post Ht Hw.
  destruct (initTechnology_write_last tech pic w pre post ev Ht Hw)
    as (data & Hm & Hblock & _).
  change (techBlock pic tech data (failure ev))
    with (provisioned pic tech
          ++ [writeEvent (projectConfigFilePath tech (projectPath pic)) data (failure ev)])
    in Hblock.
  apply app_inj_tail in Hblock as [-> ->].
  exists [], (provisioned pic tech). split; [reflexivity|].
  exists tech, data. split; [left; reflexivity|]. auto.
Qed.

Lemma initTechnologies_guarded (techs : list Technology) (pic : ProjectInitCommand) (w : W) :
  WritesGuarded (DeploymentWrite pic techs) (trace (initTechnologies env techs pic w)).
Proof.
  revert w. induction techs as [|tech techs IH]; intros w.
  - apply WritesGuarded_no_write. constructor.
  - cbn [initTechnologies]. rewrite bind_eq. cbn [trace snd].
    apply WritesGuarded_app.
    + eapply WritesGuarded_impl; [|apply initTechnology_guarded].
      intros b ev (t & data & [<-|[]] & H).
      exists tech, data. split; [left; reflexivity|exact H].
    + destruct (result (initTechnology env tech pic w)).
      * apply WritesGuarded_no_write. constructor.
      * eapply WritesGuarded_impl; [|apply IH].
        intros b ev (t & data & Hin & H). exists t, data. split; [right; exact Hin|exact H].
Qed.

(** [ev] writes the build config, after [b]. *)
Definition BuildWrite (pic : ProjectInitCommand) (b : list (Event E)) (ev : Event E)
  : Prop :=
  exists data,
    MarshalBuildConfigFile env (buildConfigFile pic) = Ok data /\
    b = [mkdirEvent (projectPath pic) None] /\
    call ev = CallWriteFile (buildConfigFilePath (projectPath pic)) data 420.

Lemma createBuildConfig_guarded (pic : ProjectInitCommand) (w : W) :
  WritesGuarded (BuildWrite pic) (trace (createBuildConfig env pic w)).
Proof.
  rewrite createBuildConfig_run. cbv zeta.
  destruct (fst (CreateDirIfNotExist env _ w)).
  { apply WritesGuarded_no_write. repeat constructor. }
  destruct (MarshalBuildConfigFile env (buildConfigFile pic)) as [data|e] eqn:Hm.
  2: { apply WritesGuarded_no_write. repeat constructor. }
  run_proj. intros pre ev post Ht Hw.
  destruct pre as [|x [|y pre]].
  - injection Ht as <- _. discriminate.
  - injection Ht as <- <- _. exists [], [mkdirEvent (projectPath pic) None].
    split; [reflexivity|]. exists data. auto.
  - injection Ht as _ _ Ht. destruct pre; discriminate.
Qed.

Lemma lookup_no_write (t : list (Event E)) :
  Forall (fun ev => isLookup (call ev) = true) t ->
  Forall (fun ev => isWriteFile (call ev) = false) t.
Proof.
  intros H. eapply Forall_impl; [exact H|].
  intros ev. cbv beta. destruct (call ev); cbn; intros Hc;
    first [reflexivity|discriminate].
Qed.

(** X7.  In a run of [Run], every file is written right after the call
    that makes its directory, which succeeded; and the deployment config
    of a technology, which is a detected one, is written right after the
    local, the remote and the virtual repository of this technology were
    provisioned, in this order and with success, and the directory
    made. *)
Theorem Run_writes_after_provisioning (pic : ProjectInitCommand) (w : W) :
  let out := Run env pic w in
  let pic' := fst (result out) in
  forall pre ev post,
    trace out = pre ++ ev :: post ->
    isWriteFile (call ev) = true ->
    (exists pre' tech data m,
        snd (result (detectionSteps env pic w)) = Ok m /\
        is_Some (m !! tech) /\
        MarshalConfigFile env (projectConfigFile env tech (serverId pic')) = Ok data /\
        pre = pre' ++ [localEvent tech (serverId pic') None;
                       remoteEvent tech (serverId pic') None;
                       virtualEvent tech (serverId pic') None;
                       mkdirEvent (projectPath pic) None] /\
        call ev = CallWriteFile (projectConfigFilePath tech (projectPath pic)) data 420) \/
    (exists pre' data,
        MarshalBuildConfigFile env (buildConfigFile pic) = Ok data /\
        pre = pre' ++ [mkdirEvent (projectPath pic) None] /\
        call ev = CallWriteFile (buildConfigFilePath (projectPath pic)) data 420).
Proof.
  intros out pic'. subst pic' out. rewrite Run_server.
  set (det := detectionSteps env pic w). set (pic' := fst (result det)).
  destruct (detectionSteps_facts env pic w) as (_ & Hdl & Hpath & _).
  cbv zeta in Hdl, Hpath. fold det in Hdl, Hpath. fold pic' in Hpath.
  apply lookup_no_write in Hdl.
  set (G := fun (b : list (Event E)) (ev : Event E) =>
              (exists m, snd (result det) = Ok m /\
                         DeploymentWrite pic' (map_to_list m).*1 b ev)
              \/ BuildWrite pic' b ev).
  assert (HG : WritesGuarded G (trace (Run env pic w))).
  { rewrite Run_steps. cbv zeta. fold det pic'.
    destruct (snd (result det)) as [m|e0] eqn:Hm.
    2: { run_proj. apply WritesGuarded_no_write, Hdl. }
    set (rg := range env m (world det)).
    assert (Hlp : WritesGuarded G (trace (initTechnologies env (result rg) pic' (world rg)))).
    { eapply WritesGuarded_impl; [|apply initTechnologies_guarded].
      intros b ev (tech & data & Hin & H). left. exists m. split; [reflexivity|].
      exists tech, data. split; [|exact H].
      apply list_elem_of_In. rewrite <- (range_Permutation env m (world det)).
      apply list_elem_of_In, Hin. }
    destruct (result (initTechnologies env (result rg) pic' (world rg))).
    { run_proj. apply WritesGuarded_app; [apply WritesGuarded_no_write, Hdl|exact Hlp]. }
    set (lp := initTechnologies env (result rg) pic' (world rg)) in *.
    assert (Hbc : WritesGuarded G (trace (createBuildConfig env pic' (world lp)))).
    { eapply WritesGuarded_impl; [|apply createBuildConfig_guarded].
      intros b ev H. right. exact H. }
    destruct (result (createBuildConfig env pic' (world lp))).
    { run_proj. apply WritesGuarded_app; [apply WritesGuarded_no_write, Hdl|].
      apply WritesGuarded_app; assumption. }
    destruct (summaryStep_run env m (world (createBuildConfig env pic' (world lp))))
      as (msg & err & Hpt & _).
    run_proj. rewrite Hpt.
    apply WritesGuarded_app; [apply WritesGuarded_no_write, Hdl|].
    apply WritesGuarded_app; [exact Hlp|].
    apply WritesGuarded_app; [exact Hbc|].
    apply WritesGuarded_no_write. repeat constructor. }
  intros pre ev post Ht Hw.
  destruct (HG pre ev post Ht Hw) as (pre' & b & -> & [HGd|HGb]).
  - left. destruct HGd as (m & Hm & tech & data & Hin & Hmar & -> & Hcall).
    exists pre', tech, data, m. rewrite <- Hpath.
    split; [exact Hm|]. split; [|auto].
    apply list_elem_of_In in Hin.
    apply list_elem_of_fmap in Hin as ([k v] & -> & Hkv).
    apply elem_of_map_to_list in Hkv. cbn. eauto.
  - right. destruct HGb as (data & Hmar & -> & Hcall).
    exists pre', data. rewrite <- Hpath, <- (buildConfigFile_path pic pic' Hpath). auto.
Qed.

(** *** A run without error *)

(** The calls of a turn of the loop that went through. *)
Definition blockOf (pic : ProjectInitCommand) (tech : Technology) : list (Event E) :=
  match MarshalConfigFile env (projectConfigFile env tech (serverId pic)) with
  | Ok data => techBlock pic tech data None
  | Err _ => []
  end.

Definition marshals (pic : ProjectInitCommand) (tech : Technology) : Prop :=
  exists data, MarshalConfigFile env (projectConfigFile env tech (serverId pic)) = Ok data.

Lemma initTechnologies_success (techs : list Technology) (pic : ProjectInitCommand) (w : W) :
  result (initTechnologies env techs pic w) = None ->
  Forall (marshals pic) techs /\
  trace (initTechnologies env techs pic w) = flat_map (blockOf pic) techs.
Proof.
  revert w. induction techs as [|tech techs IH]; intros w.
  - intros _. split; [constructor|reflexivity].
  - cbn [initTechnologies]. rewrite bind_eq. cbn [result trace fst snd].
    destruct (result (initTechnology env tech pic w)) eqn:Hr; [discriminate|].
    intros Hrest. destruct (IH _ Hrest) as [Hall Ht].
    destruct (initTechnology_success tech pic w Hr) as (data & Hm & Hblock).
    split; [constructor; [exists data; exact Hm|exact Hall]|].
    cbn [flat_map]. rewrite Hblock, Ht.
    replace (blockOf pic tech) with (techBlock pic tech data None)
      by (unfold blockOf; rewrite Hm; reflexivity).
    reflexivity.
Qed.

Lemma Run_success_trace (pic : ProjectInitCommand) (w : W) :
  let out := Run env pic w in
  let det := detectionSteps env pic w in
  let pic' := fst (result out) in
  snd (result out) = None ->
  exists m techs data msg,
    snd (result det) = Ok m /\
    techs ≡ₚ (map_to_list m).*1 /\
    Forall (marshals pic') techs /\
    MarshalBuildConfigFile env (buildConfigFile pic) = Ok data /\
    trace out =
      trace det
      ++ flat_map (blockOf pic') techs
      ++ [mkdirEvent (projectPath pic) None;
          writeEvent (buildConfigFilePath (projectPath pic)) data None]
      ++ [printlnEvent; Build_Event (CallPrintTable "" "" msg) None; printlnEvent] /\
    Forall succeeded (trace out).
Proof.
  intros out det pic'. subst pic' out det. rewrite Run_server.
  set (det := detectionSteps env pic w). set (pic' := fst (result det)).
  destruct (detectionSteps_facts env pic w) as ([_ Hdn] & _ & Hpath & _).
  cbv zeta in Hdn, Hpath. fold det in Hdn, Hpath. fold pic' in Hpath.
  rewrite Run_steps. cbv zeta. fold det pic'.
  destruct (snd (result det)) as [m|e0] eqn:Hm; [|discriminate].
  cbn [errorOf] in Hdn. specialize (Hdn eq_refl).
  set (rg := range env m (world det)).
  set (lp := initTechnologies env (result rg) pic' (world rg)).
  destruct (result lp) eqn:Hlp; [discriminate|].
  destruct (initTechnologies_success _ _ _ Hlp) as [Hmar Hlt]. fold lp in Hlt.
  set (bc := createBuildConfig env pic' (world lp)).
  destruct (result bc) eqn:Hbc; [discriminate|].
  destruct (summaryStep_run env m (world bc)) as (msg & err & Hpt & Hpr).
  run_proj. rewrite Hpr. intros ->.
  assert (Hbt : exists data,
             MarshalBuildConfigFile env (buildConfigFile pic') = Ok data /\
             trace bc = [mkdirEvent (projectPath pic') None;
                         writeEvent (buildConfigFilePath (projectPath pic')) data None]).
  { revert Hbc. unfold bc. rewrite createBuildConfig_run. cbv zeta.
    destruct (CreateDirIfNotExist env _ (world lp)) as [[e|] w1]; cbn [fst snd];
      [discriminate|].
    destruct (MarshalBuildConfigFile env (buildConfigFile pic')) as [data|e];
      [|discriminate].
    destruct (WriteFile env _ data 420 w1) as [[e|] w2]; cbn [fst snd];
      [discriminate|].
    intros _. exists data. split; reflexivity. }
  destruct Hbt as (data & Hbm & Hbt).
  exists m, (result rg), data, msg.
  split; [reflexivity|]. split; [apply range_Permutation|]. split; [exact Hmar|].
  rewrite <- (buildConfigFile_path pic pic' Hpath), <- Hpath.
  split; [exact Hbm|]. rewrite Hlt, Hbt, Hpt. split; [reflexivity|].
  apply Forall_app. split; [exact Hdn|].
  apply Forall_app. split.
  - apply Forall_flat_map. eapply Forall_impl; [exact Hmar|].
    intros tech (d & Hd). unfold blockOf. rewrite Hd. repeat constructor.
  - repeat constructor.
Qed.

(** X8.  When [Run] returns no error, everything was done and every
    call succeeded: after the detection, for each detected technology in
    turn the three repositories were provisioned and the deployment
    config written, then the build config was written, and the summary
    was printed between two empty lines. *)
Theorem Run_success_is_complete (pic : ProjectInitCommand) (w : W) :
  let out := Run env pic w in
  let det := detectionSteps env pic w in
  let pic' := fst (result out) in
  snd (result out) = None ->
  exists m techs data msg,
    snd (result det) = Ok m /\
    techs ≡ₚ (map_to_list m).*1 /\
    Forall (marshals pic') techs /\
    MarshalBuildConfigFile env (buildConfigFile pic) = Ok data /\
    trace out =
      trace det
      ++ flat_map (blockOf pic') techs
      ++ [mkdirEvent (projectPath pic) None;
          writeEvent (buildConfigFilePath (projectPath pic)) data None]
      ++ [printlnEvent; Build_Event (CallPrintTable "" "" msg) None; printlnEvent] /\
    Forall succeeded (trace out).
Proof.
  exact (Run_success_trace pic w).
Qed.

(** *** How many calls *)

(** The number of calls of a kind in a list of calls. *)
Fixpoint countCalls (p : Call -> bool) (calls : list Call) : nat :=
  match calls with
  | [] => 0
  | c :: calls' => (if p c then 1 else 0) + countCalls p calls'
  end.

Lemma countCalls_app (p : Call -> bool) (l1 l2 : list Call) :
  countCalls p (l1 ++ l2) = (countCalls p l1 + countCalls p l2)%nat.
Proof.
  induction l1 as [|c l1 IH]; [reflexivity|]. cbn. rewrite IH. lia.
Qed.

Lemma countCalls_none (p : Call -> bool) (t : list (Event E)) :
  Forall (fun ev => p (call ev) = false) t -> countCalls p (map call t) = 0%nat.
Proof.
  induction 1 as [|ev t Hev _ IH]; [reflexivity|]. cbn. rewrite Hev, IH. reflexivity.
Qed.

Lemma countCalls_plan (pic : ProjectInitCommand) (techs : list Technology) :
  countCalls isProvisioning (plan env pic techs) = (3 * length techs)%nat /\
  (countCalls isWriteFile (plan env pic techs) <= length techs)%nat.
Proof.
  induction techs as [|tech techs [IHp IHw]]; [split; cbn; lia|].
  unfold plan in *. cbn [flat_map]. rewrite !countCalls_app.
  set (np := countCalls isProvisioning (flat_map (techCalls env pic) techs)) in *.
  set (nw := countCalls isWriteFile (flat_map (techCalls env pic) techs)) in *.
  unfold techCalls. rewrite !countCalls_app.
  destruct (MarshalConfigFile env _); cbn [countCalls isProvisioning isWriteFile length];
    lia.
Qed.

Lemma countCalls_blocks (pic : ProjectInitCommand) (techs : list Technology) :
  Forall (marshals pic) techs ->
  countCalls isProvisioning (map call (flat_map (blockOf pic) techs))
  = (3 * length techs)%nat /\
  countCalls isWriteFile (map call (flat_map (blockOf pic) techs)) = length techs.
Proof.
  induction 1 as [|tech techs (data & Hm) _ [IHp IHw]]; [split; reflexivity|].
  cbn [flat_map]. rewrite !map_app, !countCalls_app, IHp, IHw.
  unfold blockOf. rewrite Hm. cbn. lia.
Qed.

Lemma lookup_counts (t : list (Event E)) :
  Forall (fun ev => isLookup (call ev) = true) t ->
  countCalls isProvisioning (map call t) = 0%nat /\
  countCalls isWriteFile (map call t) = 0%nat.
Proof.
  intros H. split; apply countCalls_none.
  - apply lookup_not_provisioning, H.
  - apply lookup_no_write, H.
Qed.

(** X9.  For [n] detected technologies, [Run] makes at most [3 * n]
    provisioning calls and writes at most [n + 1] files; a run without
    error makes exactly [3 * n] provisioning calls and writes exactly
    [n + 1] files. *)
Theorem Run_call_counts (pic : ProjectInitCommand) (w : W) (m : gmap Technology bool) :
  let out := Run env pic w in
  let calls := map call (trace out) in
  snd (result (detectionSteps env pic w)) = Ok m ->
  (countCalls isProvisioning calls <= 3 * size m)%nat /\
  (countCalls isWriteFile calls <= size m + 1)%nat /\
  (snd (result out) = None ->
   countCalls isProvisioning calls = (3 * size m)%nat /\
   countCalls isWriteFile calls = (size m + 1)%nat).
Proof.
  intros out calls Hm. subst calls out.
  set (det := detectionSteps env pic w) in *. set (pic' := fst (result det)).
  destruct (detectionSteps_facts env pic w) as (_ & Hdl & _).
  cbv zeta in Hdl. fold det in Hdl.
  destruct (lookup_counts _ Hdl) as [Hdp Hdw].
  set (rg := range env m (world det)).
  assert (Hlen : length (result rg) = size m).
  { unfold rg. rewrite (range_Permutation env m (world det)).
    rewrite length_fmap. apply length_map_to_list. }
  set (lp := initTechnologies env (result rg) pic' (world rg)).
  destruct (initTechnologies_plan env (result rg) pic' (world rg))
    as (later & Hplan & Hlater).
  cbv zeta in Hplan, Hlater. fold lp in Hplan, Hlater.
  destruct (countCalls_plan pic' (result rg)) as [Hpp Hpw].
  rewrite Hplan, !countCalls_app, Hlen in *.
  set (bc := createBuildConfig env pic' (world lp)).
  assert (Hbc : countCalls isProvisioning (map call (trace bc)) = 0%nat /\
                (countCalls isWriteFile (map call (trace bc)) <= 1)%nat).
  { unfold bc. rewrite createBuildConfig_run. cbv zeta.
    destruct (fst (CreateDirIfNotExist env _ _)); [cbn; lia|].
    destruct (MarshalBuildConfigFile env _); cbn; lia. }
  destruct Hbc as [Hbp Hbw].
  split; [|split].
  - rewrite Run_steps. cbv zeta. fold det pic'. rewrite Hm. fold rg lp.
    destruct (result lp); run_proj.
    { rewrite map_app, countCalls_app. lia. }
    fold bc. destruct (result bc); run_proj.
    { rewrite !map_app, !countCalls_app. lia. }
    destruct (summaryStep_run env m (world bc)) as (msg & err & Hpt & _).
    rewrite Hpt, !map_app, !countCalls_app. cbn. lia.
  - rewrite Run_steps. cbv zeta. fold det pic'. rewrite Hm. fold rg lp.
    destruct (result lp); run_proj.
    { rewrite map_app, countCalls_app. lia. }
    fold bc. destruct (result bc); run_proj.
    { rewrite !map_app, !countCalls_app. lia. }
    destruct (summaryStep_run env m (world bc)) as (msg & err & Hpt & _).
    rewrite Hpt, !map_app, !countCalls_app. cbn. lia.
  - intros Hnone.
    destruct (Run_success_trace pic w Hnone)
      as (m' & techs & data & msg & Hm' & Hperm & Hmar & _ & Ht & _).
    fold det in Hm', Ht. rewrite Hm in Hm'. injection Hm' as <-.
    destruct (countCalls_blocks _ _ Hmar) as [Hcp Hcw].
    assert (Hlt : length techs = size m).
    { rewrite Hperm, length_fmap. apply length_map_to_list. }
    rewrite Ht, !map_app, !countCalls_app, Hcp, Hcw, Hdp, Hdw, Hlt. cbn. lia.
Qed.

(** *** The summary *)

Lemma append_cons (x : ascii) (a b : string) : String x a +:+ b = String x (a +:+ b).
Proof. reflexivity. Qed.

Lemma append_assoc (a b c : string) : (a +:+ b) +:+ c = a +:+ b +:+ c.
Proof.
  induction a as [|x a IH]; [reflexivity|]. rewrite !append_cons, IH. reflexivity.
Qed.

Lemma append_empty_r (a : string) : a +:+ "" = a.
Proof.
  induction a as [|x a IH]; [reflexivity|]. rewrite append_cons, IH. reflexivity.
Qed.

Lemma append_eq_empty (a b : string) : a +:+ b = "" <-> a = "" /\ b = "".
Proof.
  split.
  - destruct a; [intros H; split; [reflexivity|exact H]|].
    rewrite append_cons. discriminate.
  - intros [-> ->]. reflexivity.
Qed.

(** The commands of the technologies, in the order of the visit. *)
Fixpoint commands (techs : list Technology) : string :=
  match techs with
  | [] => ""
  | tech :: techs' => techBuildMessage env tech +:+ commands techs'
  end.

Lemma fold_left_commands (techs : list Technology) (message : string) :
  fold_left (fun message tech => message +:+ techBuildMessage env tech) techs message
  = message +:+ commands techs.
Proof.
  revert message. induction techs as [|tech techs IH]; intros message.
  - cbn. symmetry. apply append_empty_r.
  - cbn [fold_left commands]. rewrite IH. apply append_assoc.
Qed.

Lemma techBuildMessage_empty (tech : Technology) :
  techBuildMessage env tech = "" <-> ~ In tech supported.
Proof.
  unfold techBuildMessage, supported. split.
  - intros Hempty Hin.
    destruct Hin as [<-|[<-|[<-|[<-|[<-|[<-|[]]]]]]]; cbn in Hempty; discriminate.
  - intros Hno.
    repeat match goal with
           | |- context [String.eqb tech ?b] =>
               destruct (String.eqb_spec tech b) as [->|_];
               [exfalso; apply Hno; simpl; tauto|]
           end.
    reflexivity.
Qed.

Lemma commands_empty (techs : list Technology) :
  commands techs = "" <-> forall tech, In tech techs -> ~ In tech supported.
Proof.
  induction techs as [|tech techs IH].
  - split; [intros _ tech []|reflexivity].
  - cbn [commands]. rewrite append_eq_empty, techBuildMessage_empty, IH. split.
    + intros [Ht Hrest] tech' [<-|Hin]; auto.
    + intros H. split; [apply H; left; reflexivity|].
      intros tech' Hin. apply H. right. exact Hin.
Qed.

Lemma commands_In (techs : list Technology) (tech : Technology) :
  In tech techs ->
  exists before after, commands techs = before +:+ techBuildMessage env tech +:+ after.
Proof.
  induction techs as [|tech' techs IH]; [intros []|].
  intros [->|Hin].
  - exists "", (commands techs). reflexivity.
  - destruct (IH Hin) as (before & after & Hc).
    exists (techBuildMessage env tech' +:+ before), after.
    cbn [commands]. rewrite Hc, append_assoc. reflexivity.
Qed.

Lemma commands_Permutation_empty (techs techs' : list Technology) :
  techs ≡ₚ techs' -> commands techs = "" -> commands techs' = "".
Proof.
  intros Hperm. rewrite !commands_empty. intros H tech Hin. apply H.
  apply list_elem_of_In. rewrite Hperm. apply list_elem_of_In, Hin.
Qed.

(** The title and the last lines around the commands. *)
Definition buildSection (body : string) : string :=
  PrintTitle env "Build the code & deploy the packages by running"
  +:+ nl +:+ body +:+ nl
  +:+ PrintTitle env "Publish the build-info to Artifactory"
  +:+ nl +:+ "jf rt bp" +:+ nl +:+ nl.

Lemma createBuildMessage_run (m : gmap Technology bool) (w : W) :
  let techs := result (range env m w) in
  createBuildMessage env m w =
    (if String.eqb (commands techs) "" then "" else buildSection (commands techs),
     world (range env m w), []).
Proof.
  intros techs. unfold createBuildMessage. rewrite bind_eq. cbv beta zeta.
  rewrite range_trace. fold techs. rewrite fold_left_commands.
  cbn [String.append].
  change ("" +:+ commands techs) with (commands techs).
  destruct (String.eqb_spec (commands techs) "") as [Heq|Hne]; [|reflexivity].
  unfold ret. run_proj. rewrite Heq. reflexivity.
Qed.

Lemma buildSection_not_empty (body : string) : buildSection body <> "".
Proof.
  unfold buildSection. intros H.
  apply append_eq_empty in H as [_ H]. discriminate.
Qed.

Lemma detected_In_range (m : gmap Technology bool) (w : W) (tech : Technology) :
  is_Some (m !! tech) <-> In tech (result (range env m w)).
Proof.
  rewrite <- list_elem_of_In, range_Permutation, list_elem_of_fmap. split.
  - intros [v Hv]. exists (tech, v). split; [reflexivity|].
    apply elem_of_map_to_list, Hv.
  - intros ([k v] & -> & Hkv). apply elem_of_map_to_list in Hkv. cbn. eauto.
Qed.

(** What holds of the build section [message] for the map [m]. *)
Definition BuildMessageOf (m : gmap Technology bool) (message : string) : Prop :=
  (message = "" <-> forall tech, is_Some (m !! tech) -> ~ In tech supported) /\
  (forall tech,
      is_Some (m !! tech) -> In tech supported ->
      exists before after, message = before +:+ techBuildMessage env tech +:+ after) /\
  (exists techs,
      techs ≡ₚ (map_to_list m).*1 /\
      message = if String.eqb (commands techs) "" then "" else buildSection (commands techs)).

Lemma createBuildMessage_BuildMessageOf (m : gmap Technology bool) (w : W) :
  BuildMessageOf m (result (createBuildMessage env m w)).
Proof.
  rewrite createBuildMessage_run. cbv zeta. run_proj.
  set (techs := result (range env m w)).
  split; [|split].
  - destruct (String.eqb_spec (commands techs) "") as [Heq|Hne].
    + split; [intros _|reflexivity]. intros tech Hdet.
      apply (proj1 (commands_empty techs) Heq), detected_In_range, Hdet.
    + split; [intros H; destruct (buildSection_not_empty _ H)|].
      intros Hno. exfalso. apply Hne, commands_empty.
      intros tech Hin. apply Hno. eapply detected_In_range, Hin.
  - intros tech Hdet Hsup.
    apply (detected_In_range m w) in Hdet. fold techs in Hdet.
    destruct (commands_In techs tech Hdet) as (before & after & Hc).
    destruct (String.eqb_spec (commands techs) "") as [Heq|Hne].
    + exfalso. apply (proj1 (commands_empty techs) Heq tech Hdet Hsup).
    + exists (PrintTitle env "Build the code & deploy the packages by running"
              +:+ nl +:+ before),
        (after +:+ nl
         +:+ PrintTitle env "Publish the build-info to Artifactory"
         +:+ nl +:+ "jf rt bp" +:+ nl +:+ nl).
      unfold buildSection. rewrite Hc, !append_assoc. reflexivity.
  - exists techs. split; [apply range_Permutation|reflexivity].
Qed.

(** X10.  [createBuildMessage] makes no call.  Its message is empty
    exactly when none of the detected technologies is one of the six
    that have commands; otherwise it is the title, the commands of the
    detected technologies in the order of the visit, which is some
    permutation of the detected ones, and the lines on publishing the
    build-info.  The commands of every detected technology that has
    some are part of the message. *)
Theorem createBuildMessage_commands (m : gmap Technology bool) (w : W) :
  let out := createBuildMessage env m w in
  trace out = [] /\
  (result out = "" <-> forall tech, is_Some (m !! tech) -> ~ In tech supported) /\
  (forall tech,
      is_Some (m !! tech) -> In tech supported ->
      techBuildMessage env tech <> "" /\
      exists before after, result out = before +:+ techBuildMessage env tech +:+ after) /\
  (exists techs,
      techs ≡ₚ (map_to_list m).*1 /\
      result out
      = if String.eqb (commands techs) "" then ""
        else PrintTitle env "Build the code & deploy the packages by running"
             +:+ nl +:+ commands techs +:+ nl
             +:+ PrintTitle env "Publish the build-info to Artifactory"
             +:+ nl +:+ "jf rt bp" +:+ nl +:+ nl).
Proof.
  intros out. subst out.
  destruct (createBuildMessage_BuildMessageOf m w) as (Hempty & Hin & Hperm).
  split; [rewrite createBuildMessage_run; reflexivity|].
  split; [exact Hempty|]. split; [|exact Hperm].
  intros tech Hdet Hsup. split; [|apply Hin; assumption].
  intros H. apply techBuildMessage_empty in H. auto.
Qed.

(** The text before and after the build section. *)
Definition summaryHeader : string :=
  PrintBold env ("This project is initialized!" +:+ nl)
  +:+ PrintBold env "The project config is stored inside the .jfrog directory."
  +:+ nl +:+ nl
  +:+ PrintTitle env "Audit your project for security vulnerabilities by running"
  +:+ nl
  +:+ "jf audit" +:+ nl +:+ nl
  +:+ PrintTitle env
        "Scan any software package on this machine for security vulnerabilities by running"
  +:+ nl
  +:+ "jf scan path/to/dir/or/package" +:+ nl +:+ nl
  +:+ PrintTitle env
        "If you're using VS Code, IntelliJ IDEA, WebStorm, PyCharm, Android Studio or GoLand"
  +:+ nl
  +:+ "1. Open the IDE" +:+ nl
  +:+ "2. Install the JFrog extension or plugin" +:+ nl
  +:+ "3. View the JFrog panel"
  +:+ nl +:+ nl.

Definition summaryFooter : string :=
  PrintTitle env "Read more using this link:"
  +:+ nl +:+ PrintLink env (GettingStartedGuideUrl env)
  +:+ nl +:+ nl +:+ GetFeedbackMessage env.

Lemma createSummarizeMessage_run (m : gmap Technology bool) (w : W) :
  createSummarizeMessage env m w =
    (summaryHeader +:+ result (createBuildMessage env m w) +:+ summaryFooter,
     world (createBuildMessage env m w), []).
Proof.
  assert (Ht : trace (createBuildMessage env m w) = [])
    by (rewrite createBuildMessage_run; reflexivity).
  unfold createSummarizeMessage. rewrite bind_eq. cbv beta zeta.
  rewrite Ht. unfold ret. run_proj.
  unfold summaryHeader, summaryFooter. rewrite !append_assoc. reflexivity.
Qed.

Lemma summaryStep_message (m : gmap Technology bool) (w : W) :
  exists bm err,
    BuildMessageOf m bm /\
    trace (summaryStep env m w) =
      [printlnEvent;
       Build_Event (CallPrintTable "" "" (summaryHeader +:+ bm +:+ summaryFooter)) err;
       printlnEvent] /\
    result (summaryStep env m w) = err.
Proof.
  unfold summaryStep. rewrite bind_eq. cbv beta zeta.
  rewrite bind_eq. cbv beta zeta.
  set (w1 := world (println env w)).
  rewrite createSummarizeMessage_run. run_proj.
  set (bm := result (createBuildMessage env m w1)).
  set (w2 := world (createBuildMessage env m w1)).
  rewrite bind_eq. cbv beta zeta. rewrite bind_eq. cbv beta zeta.
  unfold printTable, callErr.
  destruct (PrintTable env "" "" _ w2) as [err w3].
  exists bm, err. split; [apply createBuildMessage_BuildMessageOf|].
  split; reflexivity.
Qed.

(** X11.  The table that [Run] prints has empty headers and holds the
    summary of the detected map: the fixed text on auditing and
    scanning, then the build section, which is empty exactly when no
    detected technology has build commands and which contains the
    commands of every detected technology that has some, then the link
    to the guide and the feedback message.  What printing it returns is
    what [Run] returns; a run that returns no error has printed it. *)
Theorem Run_prints_summary (pic : ProjectInitCommand) (w : W) :
  let out := Run env pic w in
  (forall ev emptyMsg title msg,
      In ev (trace out) ->
      call ev = CallPrintTable emptyMsg title msg ->
      emptyMsg = "" /\ title = "" /\
      failure ev = snd (result out) /\
      exists m bm,
        snd (result (detectionSteps env pic w)) = Ok m /\
        msg = summaryHeader +:+ bm +:+ summaryFooter /\
        (bm = "" <-> forall tech, is_Some (m !! tech) -> ~ In tech supported) /\
        (forall tech,
            is_Some (m !! tech) -> In tech supported ->
            exists before after, bm = before +:+ techBuildMessage env tech +:+ after)) /\
  (snd (result out) = None ->
   exists msg, In (Build_Event (CallPrintTable "" "" msg) None) (trace out)).
Proof.
  intros out. subst out.
  destruct (detectionSteps_facts env pic w) as (_ & Hdl & _).
  cbv zeta in Hdl. rewrite Forall_forall in Hdl.
  rewrite Run_steps. cbv zeta.
  destruct (snd (result (detectionSteps env pic w))) as [m|e0] eqn:Hm.
  2:{ run_proj. split; [|discriminate].
      intros ev a b msg Hin Hc. apply list_elem_of_In, Hdl in Hin.
      rewrite Hc in Hin. discriminate. }
  fold (loopRun env pic w m).
  assert (Hloop : forall ev a b msg,
             In ev (trace (loopRun env pic w m)) ->
             call ev <> CallPrintTable a b msg).
  { intros ev a b msg Hin Hc. apply loopRun_calls in Hin.
    rewrite Hc in Hin. destruct Hin as [Hin|Hin]; discriminate. }
  assert (Hdet : forall ev a b msg,
             In ev (trace (detectionSteps env pic w)) ->
             call ev <> CallPrintTable a b msg).
  { intros ev a b msg Hin Hc. apply list_elem_of_In, Hdl in Hin.
    rewrite Hc in Hin. discriminate. }
  destruct (result (loopRun env pic w m)) as [e|].
  { run_proj. split; [|discriminate].
    intros ev a b msg [Hin|Hin]%in_app_or Hc; exfalso.
    - exact (Hdet _ _ _ _ Hin Hc).
    - exact (Hloop _ _ _ _ Hin Hc). }
  fold (buildRun env pic w m).
  assert (Hbuild : forall ev a b msg,
             In ev (trace (buildRun env pic w m)) ->
             call ev <> CallPrintTable a b msg).
  { intros ev a b msg Hin Hc. apply buildRun_calls in Hin.
    rewrite Hc in Hin. discriminate. }
  destruct (result (buildRun env pic w m)) as [e|].
  { run_proj. split; [|discriminate].
    intros ev a b msg [Hin|[Hin|Hin]%in_app_or]%in_app_or Hc; exfalso.
    - exact (Hdet _ _ _ _ Hin Hc).
    - exact (Hloop _ _ _ _ Hin Hc).
    - exact (Hbuild _ _ _ _ Hin Hc). }
  destruct (summaryStep_message m (world (buildRun env pic w m)))
    as (bm & err & (Hempty & Hcmd & _) & Hpt & Hres).
  run_proj. rewrite Hpt, Hres. split.
  - intros ev a b msg [Hin|[Hin|[Hin|Hin]%in_app_or]%in_app_or]%in_app_or Hc.
    + destruct (Hdet _ _ _ _ Hin Hc).
    + destruct (Hloop _ _ _ _ Hin Hc).
    + destruct (Hbuild _ _ _ _ Hin Hc).
    + destruct Hin as [<-|[<-|[<-|[]]]]; try discriminate.
      cbn in Hc. injection Hc as <- <- <-.
      split; [reflexivity|]. split; [reflexivity|]. split; [reflexivity|].
      exists m, bm. auto.
  - intros ->. exists (summaryHeader +:+ bm +:+ summaryFooter).
    rewrite !in_app_iff. right. right. right. right. left. reflexivity.
Qed.

End Coverage.

(** ** Where the config files are written *)

Section Locations.

Import filepath PathFacts.

(** The elements before a separator are copied one by one. *)
Lemma cleanLoop_names_then (rooted : bool) (names : list (list ascii))
  (rest out : list ascii) (dotdot : nat) :
  forallb isName names = true ->
  names <> [] ->
  (rooted = true -> 1 <= List.length out)%nat ->
  cleanLoop rooted false (joinSep names ++ Separator :: rest) out dotdot
  = cleanLoop rooted false rest (rev (joinSep names) ++ withSeparator rooted out) dotdot.
Proof.
  intros Hnames Hne Hout. revert out Hout.
  induction names as [|n names IH]; [congruence|]. intros out Hout.
  cbn [forallb] in Hnames. apply andb_true_iff in Hnames as [Hn Hnames].
  destruct names as [|n' names].
  - cbn [joinSep].
    rewrite cleanLoop_name by auto.
    cbn [cleanLoop].
    replace (IsPathSeparator Separator) with true by reflexivity.
    reflexivity.
  - change (joinSep (n :: n' :: names))
      with (n ++ Separator :: joinSep (n' :: names)).
    rewrite <- app_assoc, <- app_comm_cons.
    rewrite cleanLoop_name by auto.
    cbn [cleanLoop].
    replace (IsPathSeparator Separator) with true by reflexivity.
    rewrite IH; [|exact Hnames|discriminate|].
    + rewrite withSeparator_after by eauto using isName_nonempty.
      rewrite rev_app_distr. cbn [rev]. rewrite <- !app_assoc. reflexivity.
    + intros _. rewrite length_app, length_rev.
      pose proof (isName_nonempty n Hn). destruct n; [congruence|cbn; lia].
Qed.

Lemma cleanLoop_names_end (rooted : bool) (names : list (list ascii))
  (out : list ascii) (dotdot : nat) :
  forallb isName names = true ->
  names <> [] ->
  (rooted = true -> 1 <= List.length out)%nat ->
  cleanLoop rooted false (joinSep names) out dotdot
  = rev (joinSep names) ++ withSeparator rooted out.
Proof.
  intros Hnames Hne Hout.
  rewrite <- (app_nil_r (joinSep names)) at 1.
  apply cleanLoop_names; auto.
Qed.

(** [Clean] replaces a doubled separator between plain names by one. *)
Lemma cleanBytes_doubled_separator (root : bool) (names more : list (list ascii)) :
  forallb isName names = true -> names <> [] ->
  forallb isName more = true -> more <> [] ->
  cleanBytes (pathOfBytes root names ++ Separator :: Separator :: joinSep more)
  = pathOfBytes root (names ++ more).
Proof.
  intros Hnames Hne Hmore Hme.
  destruct (joinSep_nonempty names Hnames Hne) as (c & rest & Hj & Hc).
  assert (Hrev : forall l : list ascii, l <> [] -> rev l <> []).
  { intros l Hl Hr. apply (f_equal (@rev ascii)) in Hr.
    rewrite rev_involutive in Hr. exact (Hl Hr). }
  assert (Hjn : joinSep names <> []) by (rewrite Hj; discriminate).
  unfold pathOfBytes. rewrite (joinSep_app names more Hne Hme).
  destruct root.
  - cbn [app cleanBytes].
    replace (IsPathSeparator Separator) with true by reflexivity.
    rewrite cleanLoop_names_then by (auto; cbn; lia).
    cbn [cleanLoop].
    replace (IsPathSeparator Separator) with true by reflexivity.
    rewrite cleanLoop_names_end; [|exact Hmore|exact Hme|].
    2:{ intros _. rewrite length_app, length_rev, Hj. cbn. lia. }
    rewrite withSeparator_after by (auto; cbn; lia).
    unfold withSeparator. cbn [List.length Nat.eqb negb andb orb].
    destruct (rev (joinSep more) ++ Separator :: rev (joinSep names) ++ [Separator])
      as [|x xs] eqn:Hx.
    + destruct (rev (joinSep more)); discriminate.
    + rewrite <- Hx, rev_app_distr. cbn [rev].
      rewrite rev_app_distr, !rev_involutive. cbn [rev app].
      rewrite <- app_assoc. reflexivity.
  - cbn [app]. rewrite Hj. cbn [app cleanBytes]. rewrite Hc.
    change (c :: rest ++ Separator :: Separator :: joinSep more)
      with ((c :: rest) ++ Separator :: Separator :: joinSep more).
    rewrite <- Hj.
    rewrite cleanLoop_names_then by (auto; discriminate).
    cbn [cleanLoop].
    replace (IsPathSeparator Separator) with true by reflexivity.
    rewrite cleanLoop_names_end; [|exact Hmore|exact Hme|discriminate].
    rewrite withSeparator_after by (auto; discriminate).
    unfold withSeparator. cbn [List.length Nat.eqb negb andb orb].
    rewrite app_nil_r.
    destruct (rev (joinSep more) ++ Separator :: rev (joinSep names)) as [|x xs] eqn:Hx.
    + destruct (rev (joinSep more)); discriminate.
    + rewrite <- Hx, rev_app_distr. cbn [rev].
      rewrite !rev_involutive, <- app_assoc, Hj. reflexivity.
Qed.

(** Joining plain names to a path of plain names that ends in a
    separator appends them as well. *)
Lemma Join_pathOf_trailing (root : bool) (names more : list string) :
  forallb plainName (names ++ more) = true ->
  names <> [] -> more <> [] ->
  filepath.Join ((pathOf root names +:+ "/") :: more) = pathOf root (names ++ more).
Proof.
  intros Hnames Hne Hmore. rewrite plainName_map, map_app, forallb_app in Hnames.
  apply andb_true_iff in Hnames as [Hn Hm].
  assert (Hne' : map bytes names <> []) by (destruct names; [congruence|discriminate]).
  assert (Hmore' : map bytes more <> []) by (destruct more; [congruence|discriminate]).
  unfold filepath.Join. apply bytes_inj.
  rewrite list_ascii_of_string_of_list_ascii, bytes_pathOf.
  cbn [map]. rewrite bytes_app, bytes_pathOf, map_app.
  change (bytes "/") with [Separator].
  rewrite joinBytes_cons by (destruct (pathOfBytes root (map bytes names)); discriminate).
  rewrite <- (cleanBytes_doubled_separator root _ _ Hn Hne' Hm Hmore').
  f_equal. destruct (map bytes more) as [|m ms]; [congruence|].
  cbn [joinSep]. rewrite <- !app_assoc. reflexivity.
Qed.

Lemma Dir_pathOf (root : bool) (names : list string) (name : string) :
  forallb plainName (names ++ [name]) = true ->
  names <> [] ->
  filepath.Dir (pathOf root (names ++ [name])) = pathOf root names.
Proof.
  intros Hnames Hne. rewrite plainName_map, map_app in Hnames.
  unfold filepath.Dir. apply bytes_inj.
  rewrite list_ascii_of_string_of_list_ascii, !bytes_pathOf, map_app.
  apply dirBytes_names; [exact Hnames|].
  destruct names; [congruence|discriminate].
Qed.

Lemma lowerByte_notSeparator (c : ascii) :
  notSeparator c = true -> notSeparator (gostrings.lowerByte c) = true.
Proof.
  destruct c as [[] [] [] [] [] [] [] []]; vm_compute; auto.
Qed.

Lemma bytes_ToLower (s : string) :
  bytes (gostrings.ToLower s) = map gostrings.lowerByte (bytes s).
Proof.
  induction s as [|c s IH]; [reflexivity|]. cbn. rewrite IH. reflexivity.
Qed.

(** The file name of a technology whose name holds no separator is a
    plain name. *)
Lemma configName_plainName (tech : Technology) :
  forallb notSeparator (bytes tech) = true ->
  plainName (gostrings.ToLower tech +:+ ".yaml") = true.
Proof.
  intros Htech. unfold plainName.
  rewrite bytes_app, bytes_ToLower.
  assert (Hl : forallb notSeparator (map gostrings.lowerByte (bytes tech)) = true).
  { induction (bytes tech) as [|c l IH]; [reflexivity|].
    cbn [forallb map] in *. apply andb_true_iff in Htech as [Hc Hl].
    rewrite (lowerByte_notSeparator c Hc), (IH Hl). reflexivity. }
  assert (Hall : forallb notSeparator
                   (map gostrings.lowerByte (bytes tech) ++ bytes ".yaml") = true).
  { rewrite forallb_app, Hl. reflexivity. }
  destruct (map gostrings.lowerByte (bytes tech)) as [|a [|b [|c l]]];
    try reflexivity; exact Hall.
Qed.

(** X12.  For a project path made of plain names, with or without a
    separator at its end, the directory that is made is the path
    followed by .jfrog and projects; the deployment config of a
    technology whose name holds no separator is the file of its
    lower-case name, with the extension yaml, in that directory, and the
    build config is the file build.yaml there.  So the separator at the
    end, which changes the build name, does not change where the files
    are written, and each file is written in the directory made just
    before it. *)
Theorem config_files_in_made_directory (root : bool) (names : list string)
  (tech : Technology) (path : string) :
  forallb plainName names = true ->
  names <> [] ->
  forallb notSeparator (bytes tech) = true ->
  path = pathOf root names \/ path = pathOf root names +:+ "/" ->
  let dir := pathOf root (names ++ [".jfrog"; "projects"]) in
  jfrogProjectDir path = dir /\
  projectConfigFilePath tech path
  = pathOf root (names ++ [".jfrog"; "projects"; gostrings.ToLower tech +:+ ".yaml"]) /\
  buildConfigFilePath path
  = pathOf root (names ++ [".jfrog"; "projects"; "build.yaml"]) /\
  filepath.Dir (projectConfigFilePath tech path) = jfrogProjectDir path /\
  filepath.Dir (buildConfigFilePath path) = jfrogProjectDir path.
Proof.
  intros Hnames Hne Htech Hpath dir.
  pose proof (configName_plainName tech Htech) as Hname.
  assert (Hdir : jfrogProjectDir path = dir).
  { unfold jfrogProjectDir, dir. destruct Hpath as [->| ->].
    - apply Join_pathOf; [|exact Hne|discriminate].
      rewrite forallb_app, Hnames. reflexivity.
    - apply Join_pathOf_trailing; [|exact Hne|discriminate].
      rewrite forallb_app, Hnames. reflexivity. }
  assert (Hdne : names ++ [".jfrog"; "projects"] <> [])
    by (destruct names; discriminate).
  assert (Hfile : forall name,
             plainName name = true ->
             filepath.Join [jfrogProjectDir path; name]
             = pathOf root (names ++ [".jfrog"; "projects"; name]) /\
             filepath.Dir (filepath.Join [jfrogProjectDir path; name])
             = jfrogProjectDir path).
  { intros name Hn.
    assert (Hall : forallb plainName ((names ++ [".jfrog"; "projects"]) ++ [name]) = true).
    { rewrite !forallb_app, Hnames. cbn [forallb]. rewrite Hn. reflexivity. }
    rewrite Hdir. unfold dir.
    rewrite Join_pathOf by (auto; discriminate).
    split; [rewrite <- app_assoc; reflexivity|].
    apply Dir_pathOf; assumption. }
  destruct (Hfile _ Hname) as [Hp Hpd].
  destruct (Hfile "build.yaml" eq_refl) as [Hb Hbd].
  unfold projectConfigFilePath, buildConfigFilePath, buildFileName.
  auto.
Qed.

End Locations.

(** ** The further properties on runs of the stand-in *)

Definition detectFails (c : Call) : option string :=
  match c with
  | CallDetectTechnologies _ _ _ => Some "permission denied"
  | _ => None
  end.

Lemma Run_detection_error_denied :
  snd (result (detectionSteps (Fake.env Fake.npmRoot ∅ detectFails) Fake.myapp 0%nat))
  = Err "permission denied" /\
  snd (result (Run (Fake.env Fake.npmRoot ∅ detectFails) Fake.myapp 0%nat))
  = Some "permission denied" /\
  map call (trace (Run (Fake.env Fake.npmRoot ∅ detectFails) Fake.myapp 0%nat))
  = [CallDetectTechnologies "/tmp/p/myapp" false false].
Proof.
  assert (Hdet : snd (result (detectionSteps (Fake.env Fake.npmRoot ∅ detectFails)
                                Fake.myapp 0%nat))
                 = Err "permission denied") by (vm_compute; reflexivity).
  split; [exact Hdet|].
  destruct (Run_detection_error (Fake.env Fake.npmRoot ∅ detectFails) Fake.myapp 0%nat
              "permission denied" Hdet) as (Hres & Htrace & _).
  split; [exact Hres|]. rewrite Htrace. vm_compute. reflexivity.
Defined.

Lemma Run_writes_after_provisioning_npm :
  let env := Fake.env Fake.npmRoot ∅ Fake.noFailure in
  let run := Run env Fake.myapp 0%nat in
  let data := Fake.showConfigFile (projectConfigFile env "npm" "local-server") in
  let ev := writeEvent "/tmp/p/myapp/.jfrog/projects/npm.yaml" data None in
  trace run = firstn 5 (trace run) ++ ev :: skipn 6 (trace run) /\
  isWriteFile (call ev) = true /\
  exists pre', firstn 5 (trace run) = pre' ++ [mkdirEvent "/tmp/p/myapp" None].
Proof.
  intros env run data ev.
  assert (Ht : trace run = firstn 5 (trace run) ++ ev :: skipn 6 (trace run))
    by (vm_compute; reflexivity).
  assert (Hw : isWriteFile (call ev) = true) by reflexivity.
  split; [exact Ht|]. split; [exact Hw|].
  destruct (Run_writes_after_provisioning env Fake.myapp 0%nat _ _ _ Ht Hw)
    as [(pre' & tech & data' & m & _ & _ & _ & Hpre & _)|(pre' & data' & _ & Hpre & _)].
  - exists (pre' ++ [localEvent tech "local-server" None;
                     remoteEvent tech "local-server" None;
                     virtualEvent tech "local-server" None]).
    rewrite <- app_assoc. exact Hpre.
  - exists pre'. exact Hpre.
Defined.

Lemma Run_success_is_complete_npm :
  snd (result (Run (Fake.env Fake.npmRoot ∅ Fake.noFailure) Fake.myapp 0%nat)) = None /\
  Forall succeeded (trace (Run (Fake.env Fake.npmRoot ∅ Fake.noFailure) Fake.myapp 0%nat)) /\
  List.length (trace (Run (Fake.env Fake.npmRoot ∅ Fake.noFailure) Fake.myapp 0%nat))
  = 11%nat.
Proof.
  assert (Hnone : snd (result (Run (Fake.env Fake.npmRoot ∅ Fake.noFailure)
                                 Fake.myapp 0%nat)) = None)
    by (vm_compute; reflexivity).
  split; [exact Hnone|].
  destruct (Run_success_is_complete (Fake.env Fake.npmRoot ∅ Fake.noFailure)
              Fake.myapp 0%nat Hnone) as (m & techs & data & msg & _ & _ & _ & _ & _ & Hall).
  split; [exact Hall|]. vm_compute. reflexivity.
Defined.

Lemma Run_call_counts_npm :
  snd (result (detectionSteps (Fake.env Fake.npmRoot ∅ Fake.noFailure) Fake.myapp 0%nat))
  = Ok Fake.npmRoot /\
  snd (result (Run (Fake.env Fake.npmRoot ∅ Fake.noFailure) Fake.myapp 0%nat)) = None /\
  countCalls isProvisioning
    (map call (trace (Run (Fake.env Fake.npmRoot ∅ Fake.noFailure) Fake.myapp 0%nat)))
  = 3%nat /\
  countCalls isWriteFile
    (map call (trace (Run (Fake.env Fake.npmRoot ∅ Fake.noFailure) Fake.myapp 0%nat)))
  = 2%nat.
Proof.
  assert (Hdet : snd (result (detectionSteps (Fake.env Fake.npmRoot ∅ Fake.noFailure)
                                Fake.myapp 0%nat)) = Ok Fake.npmRoot)
    by (vm_compute; reflexivity).
  assert (Hnone : snd (result (Run (Fake.env Fake.npmRoot ∅ Fake.noFailure)
                                 Fake.myapp 0%nat)) = None)
    by (vm_compute; reflexivity).
  split; [exact Hdet|]. split; [exact Hnone|].
  destruct (Run_call_counts (Fake.env Fake.npmRoot ∅ Fake.noFailure) Fake.myapp 0%nat
              Fake.npmRoot Hdet) as (_ & _ & Hsuccess).
  destruct (Hsuccess Hnone) as [Hp Hw].
  split; [rewrite Hp|rewrite Hw]; vm_compute; reflexivity.
Defined.

Lemma config_files_in_made_directory_trailing :
  jfrogProjectDir "/tmp/p/myapp/" = "/tmp/p/myapp/.jfrog/projects" /\
  projectConfigFilePath "npm" "/tmp/p/myapp/" = "/tmp/p/myapp/.jfrog/projects/npm.yaml" /\
  buildConfigFilePath "/tmp/p/myapp/" = "/tmp/p/myapp/.jfrog/projects/build.yaml" /\
  filepath.Dir (projectConfigFilePath "npm" "/tmp/p/myapp/")
  = jfrogProjectDir "/tmp/p/myapp/" /\
  filepath.Dir (buildConfigFilePath "/tmp/p/myapp/") = jfrogProjectDir "/tmp/p/myapp/".
Proof.
  assert (Hne : ["tmp"; "p"; "myapp"] <> @nil string) by discriminate.
  exact (config_files_in_made_directory true ["tmp"; "p"; "myapp"] "npm" "/tmp/p/myapp/"
           eq_refl Hne eq_refl (or_intror eq_refl)).
Defined.
